(** * fpv_detector: serial sensor feed, GPS enrichment, ZMQ publication

    A shallow embedding of [fpv_detector.py].  The program reads lines from
    a serial device ([read_serial]), decodes each one as JSON, logs a few
    sensor events, attaches the gpsd position ([get_gps_location]) and
    publishes the result on a ZMQ socket ([main]).

    The Python runtime and the two libraries the program calls (json, gps3)
    are interfaces here: the development holds for every implementation of
    them.  What the program itself does with their results is modelled
    line by line. *)

From Stdlib Require Import List ZArith NArith Bool Lia String Ascii SpecFloat PeanoNat.
From Stdlib Require Import Strings.Byte DecimalString.
Import ListNotations.
Set Warnings "-register-all".
Open Scope string_scope.
Open Scope list_scope.

(** ** Python values *)

(** A Python [str] is a sequence of Unicode code points. *)
Definition pystr := list N.

(** Source literals are ASCII. *)
Definition str (s : string) : pystr := map N_of_ascii (list_ascii_of_string s).

Arguments str : simpl never.

Fixpoint pystr_eqb (a b : pystr) : bool :=
  match a, b with
  | [], [] => true
  | x :: a', y :: b' => N.eqb x y && pystr_eqb a' b'
  | _, _ => false
  end.

(** The values [json.loads] builds, which are also the values gps3 stores:
    [None], [bool], [int], [float], [str], [list] and [dict].  A [dict] keeps
    its items in insertion order, which is the order [json.dumps] writes. *)
Inductive value :=
| VNone
| VBool (b : bool)
| VInt (n : Z)
| VFloat (x : spec_float)
| VStr (s : pystr)
| VList (xs : list value)
| VDict (items : list (pystr * value)).

Definition dict := list (pystr * value).

(** The literal [0.0]. *)
Definition zero_float : value := VFloat (S754_zero false).


(** [d[k]] when present. *)
Fixpoint dict_lookup (d : dict) (k : pystr) : option value :=
  match d with
  | [] => None
  | (k', v) :: rest => if pystr_eqb k' k then Some v else dict_lookup rest k
  end.

(** [d.get(k, default)]. *)
Definition dict_get (d : dict) (k : pystr) (default : value) : value :=
  match dict_lookup d k with
  | Some v => v
  | None => default
  end.

(** [d[k] = v]: an existing key keeps its place and takes the new value, a
    new key goes last. *)
Fixpoint dict_set (d : dict) (k : pystr) (v : value) : dict :=
  match d with
  | [] => [(k, v)]
  | (k', v') :: rest =>
      if pystr_eqb k' k then (k', v) :: rest else (k', v') :: dict_set rest k v
  end.

Definition keys (d : dict) : list pystr := map fst d.

(** ** Strings: [in] and [strip] *)

Fixpoint startswith (s prefix : pystr) {struct prefix} : bool :=
  match prefix, s with
  | [], _ => true
  | p :: prefix', c :: s' => N.eqb p c && startswith s' prefix'
  | _ :: _, [] => false
  end.

(** [needle in hay] on two strings: [needle] occurs at some offset. *)
Fixpoint contains (needle hay : pystr) : bool :=
  startswith hay needle ||
  match hay with
  | [] => false
  | _ :: hay' => contains needle hay'
  end.

(** The code points [str.isspace] accepts, which are the ones [str.strip]
    removes. *)
Definition isspace (c : N) : bool :=
  ((9 <=? c) && (c <=? 13) || (28 <=? c) && (c <=? 32) ||
   (c =? 133) || (c =? 160) || (c =? 5760) ||
   (8192 <=? c) && (c <=? 8202) ||
   (c =? 8232) || (c =? 8233) || (c =? 8239) || (c =? 8287) || (c =? 12288))%N.

Fixpoint lstrip (s : pystr) : pystr :=
  match s with
  | [] => []
  | c :: s' => if isspace c then lstrip s' else s
  end.

Definition rstrip (s : pystr) : pystr := rev (lstrip (rev s)).

Definition strip (s : pystr) : pystr := rstrip (lstrip s).

(** ** Exceptions, log records and effects *)

Inductive exn :=
| JSONDecodeError
| AttributeError (obj : value) (attr : pystr)
| TypeError (obj : value)
| SerialException (msg : pystr)
| OtherException (msg : pystr).

Definition is_SerialException (e : exn) : bool :=
  match e with
  | SerialException _ => true
  | _ => false
  end.

Inductive level := DEBUG | WARNING | ERROR.

(** The parts of an f-string: literal text and the interpolated values. *)
Inductive piece :=
| Txt (s : pystr)
| Num (n : Z)
| Exc (e : exn).

(** What the program does to the outside, in order: a [logging] call, a
    [time.sleep] and a [zmq_socket.send_string]. *)
Inductive event :=
| Log (lvl : level) (msg : list piece)
| Sleep (seconds : Z)
| Send (json_message : pystr).

(** The messages published in a trace. *)
Fixpoint sent (tr : list event) : list pystr :=
  match tr with
  | [] => []
  | Send m :: tr' => m :: sent tr'
  | _ :: tr' => sent tr'
  end.

(** The log records of one level in a trace. *)
Fixpoint logged (lvl : level) (tr : list event) : list (list piece) :=
  match tr with
  | [] => []
  | Log l m :: tr' =>
      match lvl, l with
      | DEBUG, DEBUG | WARNING, WARNING | ERROR, ERROR => m :: logged lvl tr'
      | _, _ => logged lvl tr'
      end
  | _ :: tr' => logged lvl tr'
  end.

(** ** Constants *)

Definition DEFAULT_SERIAL_PORT : pystr := str "/dev/ttyACM0".
Definition DEFAULT_BAUD_RATE : Z := 115200.
Definition DEFAULT_ZMQ_PORT : Z := 4020.
Definition RECONNECT_DELAY : Z := 5.

(** The result of [parse_args]. *)
Record Args := {
  serial : pystr;
  baud : Z;
  zmq_port : Z;
  stationary : bool;
  debug : bool
}.

(** ** The libraries *)

(** The Python runtime: [json.loads] ([None] is [JSONDecodeError]),
    [json.dumps] and [bytes.decode("utf-8", errors="replace")]. *)
Class Python := {
  json_loads : pystr -> option value;
  json_dumps : value -> pystr;
  decode_utf8_replace : list byte -> pystr
}.

(** gps3: a [DataStream] object, what [unpack] does to it and its [TPV]
    attribute. *)
Class Gps3 := {
  DataStream : Type;
  new_DataStream : DataStream;
  unpack : pystr -> DataStream -> DataStream;
  TPV : DataStream -> dict
}.

(** What [gps_socket.next()] does: it returns a value ([None] or a string)
    or raises [StopIteration]. *)
Inductive next_result :=
| Returned (new_data : option pystr)
| Raised_StopIteration.

(** gpsd, as the program sees it: the outcome of the n-th call of
    [gps_socket.next()]. *)
Class Gpsd := {
  gps_next : nat -> next_result
}.

(** The answer of the serial device to [serial.Serial(...)] and to
    [ser.readline()]: success (with the bytes read; an open reads none) or an
    exception. *)
Inductive reply :=
| Ok (data : list byte)
| Raise (e : exn).

Section Program.

Context `{Python} `{Gps3} `{Gpsd}.

(** ** get_gps_location *)

(** [if new_data:] on a string. *)
Definition truthy (new_data : pystr) : bool :=
  match new_data with
  | [] => false
  | _ :: _ => true
  end.

(** [polls] counts the calls of [gps_socket.next()] made so far.  The result
    is the pair returned, the data stream after the call and the new count. *)
Definition get_gps_location (polls : nat) (data_stream : DataStream)
  : (value * value) * DataStream * nat :=
  match gps_next polls with
  | Returned (Some new_data) =>
      if truthy new_data then
        let data_stream' := unpack new_data data_stream in
        let lat := dict_get (TPV data_stream') (str "lat") zero_float in
        let lon := dict_get (TPV data_stream') (str "lon") zero_float in
        ((lat, lon), data_stream', S polls)
      else ((zero_float, zero_float), data_stream, S polls)
  | Returned None => ((zero_float, zero_float), data_stream, S polls)
  | Raised_StopIteration => ((zero_float, zero_float), data_stream, S polls)
  end.

(** ** read_serial *)

(** Where the generator stands when it next asks the device for something:
    about to open the port, about to read a line, or finished because an
    exception left it. *)
Inductive gen_state :=
| Connecting
| Streaming
| Terminated.

(** One request to the device and everything up to the next one: the next
    state, the effects and the line yielded to the consumer, if any. *)
Definition read_serial (args : Args) (g : gen_state) (r : reply)
  : gen_state * list event * option pystr :=
  match g with
  | Connecting =>
      match r with
      | Ok _ =>
          (Streaming,
           [Log WARNING [Txt (str "Connected to "); Txt (serial args);
                         Txt (str " at "); Num (baud args); Txt (str " baud.")]],
           None)
      | Raise e =>
          if is_SerialException e then
            (Connecting,
             [Log ERROR [Txt (str "Serial connection error: "); Exc e;
                         Txt (str ". Reconnecting in "); Num RECONNECT_DELAY;
                         Txt (str " seconds...")];
              Sleep RECONNECT_DELAY],
             None)
          else (Terminated, [], None)
      end
  | Streaming =>
      match r with
      | Ok data =>
          let line := strip (decode_utf8_replace data) in
          if truthy line then
            (Streaming, [Log DEBUG [Txt (str "Raw data: "); Txt line]], Some line)
          else (Streaming, [], None)
      | Raise e =>
          if is_SerialException e then
            (Connecting,
             [Log ERROR [Txt (str "Serial connection error: "); Exc e;
                         Txt (str ". Reconnecting in "); Num RECONNECT_DELAY;
                         Txt (str " seconds...")];
              Sleep RECONNECT_DELAY],
             None)
          else (Terminated, [], None)
      end
  | Terminated => (Terminated, [], None)
  end.

(** ** main *)

Inductive GPSDSocket := Connected.

(** The variables of [main] that live across records, and the number of
    [gps_socket.next()] calls made so far. *)
Record state := {
  gps_socket : option GPSDSocket;
  data_stream : option DataStream;
  lat_cache : value;
  lon_cache : value;
  polls : nat
}.

(** A statement of [main]: it logs and sends, changes the state, and returns
    or raises. *)
Definition M (A : Type) : Type := state -> list event * state * (exn + A).

Definition ret {A} (a : A) : M A := fun st => ([], st, inr a).

Definition bind {A B} (m : M A) (k : A -> M B) : M B :=
  fun st =>
    match m st with
    | (tr, st', inl e) => (tr, st', inl e)
    | (tr, st', inr a) =>
        match k a st' with
        | (tr', st'', r) => (tr ++ tr', st'', r)
        end
    end.

Definition raise {A} (e : exn) : M A := fun st => ([], st, inl e).

Definition emit (ev : event) : M unit := fun st => ([ev], st, inr tt).

Definition get_state : M state := fun st => ([], st, inr st).

Definition put_state (st' : state) : M unit := fun _ => ([], st', inr tt).

(** [try: body except e: handler e] *)
Definition try_except {A} (body : M A) (handler : exn -> M A) : M A :=
  fun st =>
    match body st with
    | (tr, st', inl e) =>
        match handler e st' with
        | (tr', st'', r) => (tr ++ tr', st'', r)
        end
    | (tr, st', inr a) => (tr, st', inr a)
    end.

Notation "x <- m ;; k" := (bind m (fun x => k))
  (at level 61, m at next level, right associativity).
Notation "m ;; k" := (bind m (fun _ => k))
  (at level 61, right associativity).

(** [obj.get(k, default)]: only a dict has the method. *)
Definition method_get (obj : value) (k : pystr) (default : value) : M value :=
  match obj with
  | VDict d => ret (dict_get d k default)
  | _ => raise (AttributeError obj (str "get"))
  end.

(** [v == s] for a string literal [s]. *)
Definition eq_str (v : value) (s : pystr) : bool :=
  match v with
  | VStr s' => pystr_eqb s' s
  | _ => false
  end.

(** [needle in container] for a string [needle]: a substring of a string, an
    element of a list, a key of a dict; the other values are not iterable. *)
Definition py_in (needle : pystr) (container : value) : M bool :=
  match container with
  | VStr s => ret (contains needle s)
  | VList xs => ret (existsb (fun x => eq_str x needle) xs)
  | VDict d => ret (existsb (fun k => pystr_eqb k needle) (keys d))
  | _ => raise (TypeError container)
  end.

(** [obj[k] = v] for a string key: only a dict takes it. *)
Definition setitem (obj : value) (k : pystr) (v : value) : M value :=
  match obj with
  | VDict d => ret (VDict (dict_set d k v))
  | _ => raise (TypeError obj)
  end.

Definition warning (text : string) : M unit := emit (Log WARNING [Txt (str text)]).

(** Lines 130 to 141: the log records that depend on the type of the
    message. *)
Definition inspect (data : value) : M unit :=
  msg_type <- method_get data (str "type") (VStr (str "")) ;;
  if eq_str msg_type (str "nodeMsg") then
    warning "Boot message received."
  else if eq_str msg_type (str "nodeAlert") then
    msg <- method_get data (str "msg") (VDict []) ;;
    stat <- method_get msg (str "stat") (VStr (str "")) ;;
    new <- py_in (str "NEW CONTACT LOCK") stat ;;
    if new then warning "New FPV Drone detected!"
    else
      update <- py_in (str "LOCK UPDATE") stat ;;
      if update then warning "FPV Drone still in view."
      else
        lost <- py_in (str "LOST CONTACT LOCK") stat ;;
        if lost then warning "FPV Drone signal lost."
        else ret tt
  else ret tt.

(** Lines 145 to 150: the position attached to the record. *)
Definition locate (args : Args) : M (value * value) :=
  st <- get_state ;;
  match negb (stationary args), gps_socket st, data_stream st with
  | true, Some _, Some ds =>
      match get_gps_location (polls st) ds with
      | ((current_lat, current_lon), ds', polls') =>
          put_state {| gps_socket := gps_socket st;
                       data_stream := Some ds';
                       lat_cache := lat_cache st;
                       lon_cache := lon_cache st;
                       polls := polls' |} ;;
          ret (current_lat, current_lon)
      end
  | _, _, _ => ret (lat_cache st, lon_cache st)
  end.

(** Lines 144 to 158: the position goes into the record and the record
    out. *)
Definition enrich (args : Args) (data : value) : M unit :=
  latlon <- locate args ;;
  data <- setitem data (str "gps_lat") (fst latlon) ;;
  data <- setitem data (str "gps_lon") (snd latlon) ;;
  let json_message := json_dumps data in
  emit (Send json_message) ;;
  emit (Log DEBUG [Txt (str "Published: "); Txt json_message]).

(** The body of the inner [try], lines 128 to 158. *)
Definition handle (args : Args) (line : pystr) : M unit :=
  data <- match json_loads line with
          | Some v => ret v
          | None => raise JSONDecodeError
          end ;;
  inspect data ;;
  enrich args data.

(** One turn of the [for] loop, lines 126 to 163. *)
Definition process_line (args : Args) (line : pystr) : M unit :=
  try_except (handle args line)
    (fun e =>
       match e with
       | JSONDecodeError =>
           emit (Log WARNING [Txt (str "Failed to parse JSON: "); Txt line])
       | _ => emit (Log ERROR [Txt (str "Unexpected error: "); Exc e])
       end).

(** The [for] loop over the lines the generator yields. *)
Fixpoint main_loop (args : Args) (lines : list pystr) : M unit :=
  match lines with
  | [] => ret tt
  | line :: lines' => process_line args line ;; main_loop args lines'
  end.

(** Lines 98 to 122: the GPS connection and the ZMQ socket. *)
Definition startup (args : Args) : list event * state :=
  let st :=
    if negb (stationary args) then
      {| gps_socket := Some Connected; data_stream := Some new_DataStream;
         lat_cache := zero_float; lon_cache := zero_float; polls := 0 |}
    else
      match get_gps_location 0 new_DataStream with
      | ((lat, lon), _, polls') =>
          {| gps_socket := None; data_stream := None;
             lat_cache := lat; lon_cache := lon; polls := polls' |}
      end in
  ([Log WARNING [Txt (str "ZMQ XPUB socket bound to tcp://0.0.0.0:");
                 Num (zmq_port args)]], st).

(** [main] on the lines its generator yields. *)
Definition main (args : Args) (lines : list pystr) : list event * state * (exn + unit) :=
  match startup args with
  | (tr0, st0) =>
      match main_loop args lines st0 with
      | (tr, st, r) => (tr0 ++ tr, st, r)
      end
  end.

(** [main] driven by the serial device: each reply moves the generator, and
    a yielded line goes through one turn of the loop before the generator
    is resumed. *)
Fixpoint drive (args : Args) (g : gen_state) (st : state) (replies : list reply)
  : list event * (gen_state * state) :=
  match replies with
  | [] => ([], (g, st))
  | r :: replies' =>
      match read_serial args g r with
      | (g', tr, yielded) =>
          match
            match yielded with
            | Some line =>
                match process_line args line st with
                | (tr', st', _) => (tr', st')
                end
            | None => ([], st)
            end
          with
          | (tr', st') =>
              match drive args g' st' replies' with
              | (rest, final) => (tr ++ tr' ++ rest, final)
              end
          end
      end
  end.

(** The lines a run of the generator yields. *)
Fixpoint yielded_lines (args : Args) (g : gen_state) (replies : list reply)
  : list pystr :=
  match replies with
  | [] => []
  | r :: replies' =>
      match read_serial args g r with
      | (g', _, Some line) => line :: yielded_lines args g' replies'
      | (g', _, None) => yielded_lines args g' replies'
      end
  end.

(** The state of the generator after a run. *)
Fixpoint generator_after (args : Args) (g : gen_state) (replies : list reply)
  : gen_state :=
  match replies with
  | [] => g
  | r :: replies' =>
      match read_serial args g r with
      | (g', _, _) => generator_after args g' replies'
      end
  end.

(** ** Notions the properties are stated with *)

(** The three parts of a run. *)
Definition trace_of {A} (run : list event * state * (exn + A)) : list event :=
  fst (fst run).

Definition state_of {A} (run : list event * state * (exn + A)) : state :=
  snd (fst run).

Definition result_of {A} (run : list event * state * (exn + A)) : exn + A :=
  snd run.

(** The position [locate] gives in a state. *)
Definition position (args : Args) (st : state) : value * value :=
  match result_of (locate args st) with
  | inr latlon => latlon
  | inl _ => (zero_float, zero_float)
  end.

(** The record [d] with the two coordinates set. *)
Definition enriched (d : dict) (lat lon : value) : dict :=
  dict_set (dict_set d (str "gps_lat") lat) (str "gps_lon") lon.

(** The records whose status the alert branch can read: the type is not
    ["nodeAlert"], or [msg] is absent or a dict whose [stat] is absent or
    a string, a list or a dict. *)
Definition inspectable (d : dict) : bool :=
  if eq_str (dict_get d (str "type") (VStr (str ""))) (str "nodeMsg") then true
  else if eq_str (dict_get d (str "type") (VStr (str ""))) (str "nodeAlert") then
    match dict_get d (str "msg") (VDict []) with
    | VDict m =>
        match dict_get m (str "stat") (VStr (str "")) with
        | VStr _ | VList _ | VDict _ => true
        | _ => false
        end
    | _ => false
    end
  else true.

(** The record a line stands for, when it is a JSON object with a status
    that can be read. *)
Definition accepted (line : pystr) : option dict :=
  match json_loads line with
  | Some (VDict d) => if inspectable d then Some d else None
  | _ => None
  end.

Fixpoint accepted_records (lines : list pystr) : list dict :=
  match lines with
  | [] => []
  | line :: lines' =>
      match accepted line with
      | Some d => d :: accepted_records lines'
      | None => accepted_records lines'
      end
  end.

(** The state of [main] after the lines [before]. *)
Definition reached (args : Args) (before : list pystr) : state :=
  match main args before with
  | (_, st, _) => st
  end.

(** The status text of an alert: the empty string when [msg] or [stat] is
    absent. *)
Definition status_text (d : dict) : option pystr :=
  match dict_lookup d (str "msg") with
  | None => Some []
  | Some (VDict m) =>
      match dict_lookup m (str "stat") with
      | None => Some []
      | Some (VStr s) => Some s
      | Some _ => None
      end
  | Some _ => None
  end.

(** The three checks of the specification, in its order, with the log entry
    of each. *)
Definition alert_checks : list (string * string) :=
  [("NEW CONTACT LOCK", "New FPV Drone detected!");
   ("LOCK UPDATE", "FPV Drone still in view.");
   ("LOST CONTACT LOCK", "FPV Drone signal lost.")].

(** First match wins. *)
Definition first_match (status : pystr) : option string :=
  match find (fun check => contains (str (fst check)) status) alert_checks with
  | Some check => Some (snd check)
  | None => None
  end.

(** The log entry of an alert with the status [status]: one warning for the
    first check that matches, none when no check matches. *)
Definition alert_entry (status : pystr) : list event :=
  match first_match status with
  | Some entry => [Log WARNING [Txt (str entry)]]
  | None => []
  end.


(** gpsd has no report pending. *)
Definition no_pending (r : next_result) : bool :=
  match r with
  | Returned (Some (_ :: _)) => false
  | _ => true
  end.

(** The device succeeds or fails with [SerialException], nothing else. *)
Definition transport_only (r : reply) : bool :=
  match r with
  | Ok _ => true
  | Raise e => is_SerialException e
  end.

(** The first [n] replies of a device that never stops answering. *)
Definition first_replies (device : nat -> reply) (n : nat) : list reply :=
  map device (seq 0 n).

(** ** setup_logging *)

(** The numeric value of a level in [logging]. *)
Definition levelno (lvl : level) : Z :=
  match lvl with
  | DEBUG => 10
  | WARNING => 30
  | ERROR => 40
  end.

(** The level [setup_logging] gives to [logging.basicConfig]. *)
Definition setup_logging (debug : bool) : level :=
  if debug then DEBUG else WARNING.

(** The log records of a trace that come out under a level: those at or
    above it. *)
Fixpoint shown (log_level : level) (tr : list event) : list event :=
  match tr with
  | [] => []
  | Log lvl msg :: tr' =>
      if (levelno log_level <=? levelno lvl)%Z
      then Log lvl msg :: shown log_level tr'
      else shown log_level tr'
  | _ :: tr' => shown log_level tr'
  end.

(** ** The sockets *)







(** ** Measures of a run *)

(** The reports gpsd has pending at the calls [start], ..., [start + count - 1]
    of [gps_socket.next()]. *)
Fixpoint pending_reports (start count : nat) : list pystr :=
  match count with
  | O => []
  | S count' =>
      match gps_next start with
      | Returned (Some (c :: new_data)) =>
          (c :: new_data) :: pending_reports (S start) count'
      | _ => pending_reports (S start) count'
      end
  end.

(** The seconds spent in [time.sleep]. *)
Fixpoint slept (tr : list event) : Z :=
  match tr with
  | [] => 0
  | Sleep seconds :: tr' => seconds + slept tr'
  | _ :: tr' => slept tr'
  end.

(** The replies that are a [SerialException]. *)
Fixpoint failures (rs : list reply) : nat :=
  match rs with
  | [] => 0
  | Raise (SerialException _) :: rs' => S (failures rs')
  | _ :: rs' => failures rs'
  end.

(** [k in d] for a string key. *)
Definition has_key (d : dict) (k : pystr) : bool :=
  existsb (fun k' => pystr_eqb k' k) (keys d).

End Program.

Arguments state {_}.
Arguments M {_} A.

(** ** Stand-ins for the libraries

    Implementations of the three interfaces on which the program can be run.
    They cover what the runs below need: JSON without fractions, exponents
    and string escapes on the reading side, the two entries of gps3's [TPV]
    that the program reads, and a scripted gpsd. *)

Module Sample.

(** *** json.loads on a fragment of JSON *)

Definition json_space (c : N) : bool :=
  ((c =? 32) || (c =? 9) || (c =? 10) || (c =? 13))%N.

Fixpoint skip_ws (s : pystr) : pystr :=
  match s with
  | [] => []
  | c :: s' => if json_space c then skip_ws s' else s
  end.

(** The characters up to the closing quote; a backslash or a control
    character ends the attempt. *)
Fixpoint scan_string (s : pystr) : option (pystr * pystr) :=
  match s with
  | [] => None
  | c :: s' =>
      if (c =? 34)%N then Some ([], s')
      else if ((c =? 92) || (c <? 32))%N then None
      else
        match scan_string s' with
        | Some (body, rest) => Some (c :: body, rest)
        | None => None
        end
  end.

Definition is_digit (c : N) : bool := ((48 <=? c) && (c <=? 57))%N.

Fixpoint scan_digits (s : pystr) (acc : Z) : Z * pystr :=
  match s with
  | [] => (acc, [])
  | c :: s' =>
      if is_digit c then scan_digits s' (10 * acc + Z.of_N (c - 48))%Z
      else (acc, s)
  end.

(** An integer: [0] or a digit from 1 to 9 and more digits.  A fraction or an
    exponent after it is not read. *)
Definition scan_int (s : pystr) : option (Z * pystr) :=
  match s with
  | [] => None
  | c :: s' =>
      if (c =? 48)%N then Some (0%Z, s')
      else if is_digit c then Some (scan_digits s 0%Z)
      else None
  end.

Definition no_fraction (s : pystr) : bool :=
  match s with
  | c :: _ => negb ((c =? 46) || (c =? 101) || (c =? 69))%N
  | [] => true
  end.

Definition scan_atom (s : pystr) : option (value * pystr) :=
  if startswith s (str "null") then Some (VNone, skipn 4 s)
  else if startswith s (str "true") then Some (VBool true, skipn 4 s)
  else if startswith s (str "false") then Some (VBool false, skipn 5 s)
  else if startswith s (str "NaN") then Some (VFloat S754_nan, skipn 3 s)
  else if startswith s (str "Infinity") then
    Some (VFloat (S754_infinity false), skipn 8 s)
  else if startswith s (str "-Infinity") then
    Some (VFloat (S754_infinity true), skipn 9 s)
  else
    match s with
    | 45%N :: s' =>
        match scan_int s' with
        | Some (n, rest) => if no_fraction rest then Some (VInt (- n), rest) else None
        | None => None
        end
    | _ =>
        match scan_int s with
        | Some (n, rest) => if no_fraction rest then Some (VInt n, rest) else None
        | None => None
        end
    end.

Fixpoint scan_value (fuel : nat) (s : pystr) : option (value * pystr) :=
  match fuel with
  | O => None
  | S fuel' =>
      match s with
      | 34%N :: s' =>
          match scan_string s' with
          | Some (body, rest) => Some (VStr body, rest)
          | None => None
          end
      | 91%N :: s' =>
          match skip_ws s' with
          | 93%N :: rest => Some (VList [], rest)
          | s'' => scan_items fuel' s'' []
          end
      | 123%N :: s' =>
          match skip_ws s' with
          | 125%N :: rest => Some (VDict [], rest)
          | s'' => scan_pairs fuel' s'' []
          end
      | _ => scan_atom s
      end
  end
with scan_items (fuel : nat) (s : pystr) (acc : list value) : option (value * pystr) :=
  match fuel with
  | O => None
  | S fuel' =>
      match scan_value fuel' s with
      | Some (v, rest) =>
          match skip_ws rest with
          | 44%N :: rest' => scan_items fuel' (skip_ws rest') (acc ++ [v])
          | 93%N :: rest' => Some (VList (acc ++ [v]), rest')
          | _ => None
          end
      | None => None
      end
  end
with scan_pairs (fuel : nat) (s : pystr) (acc : dict) : option (value * pystr) :=
  match fuel with
  | O => None
  | S fuel' =>
      match s with
      | 34%N :: s' =>
          match scan_string s' with
          | Some (k, rest) =>
              match skip_ws rest with
              | 58%N :: rest' =>
                  match scan_value fuel' (skip_ws rest') with
                  | Some (v, rest'') =>
                      match skip_ws rest'' with
                      | 44%N :: rest''' =>
                          scan_pairs fuel' (skip_ws rest''') (dict_set acc k v)
                      | 125%N :: rest''' => Some (VDict (dict_set acc k v), rest''')
                      | _ => None
                      end
                  | None => None
                  end
              | _ => None
              end
          | None => None
          end
      | _ => None
      end
  end.

Definition loads (s : pystr) : option value :=
  match scan_value (2 * List.length s + 2) (skip_ws s) with
  | Some (v, rest) =>
      match skip_ws rest with
      | [] => Some v
      | _ :: _ => None
      end
  | None => None
  end.

(** *** json.dumps *)

Definition decimal (n : Z) : pystr := str (NilZero.string_of_int (Z.to_int n)).

Definition hex_digit (n : N) : N := (if n <? 10 then 48 + n else 87 + n)%N.

(** [\uXXXX] *)
Definition escape_unit (n : N) : pystr :=
  [92; 117; hex_digit (n / 4096 mod 16); hex_digit (n / 256 mod 16);
   hex_digit (n / 16 mod 16); hex_digit (n mod 16)]%N.

Definition escape_char (c : N) : pystr :=
  (if c =? 34 then [92; 34]
   else if c =? 92 then [92; 92]
   else if c =? 10 then [92; 110]
   else if c =? 13 then [92; 114]
   else if c =? 9 then [92; 116]
   else if c =? 8 then [92; 98]
   else if c =? 12 then [92; 102]
   else if (32 <=? c) && (c <=? 126) then [c]
   else if c <? 65536 then escape_unit c
   else escape_unit (55296 + (c - 65536) / 1024) ++
        escape_unit (56320 + (c - 65536) mod 1024))%N.

Definition quote (s : pystr) : pystr := [34%N] ++ flat_map escape_char s ++ [34%N].

Fixpoint rstrip_zeros (rev_digits : pystr) : pystr :=
  match rev_digits with
  | 48%N :: (_ :: _) as rest => rstrip_zeros rest
  | _ => rev_digits
  end.

(** A finite float [m * 2^e] by its exact decimal expansion; [json.dumps]
    writes the shortest numeral that reads back as the same float. *)
Definition float_digits (m : positive) (e : Z) : pystr :=
  if (0 <=? e)%Z then decimal (Z.pos m * 2 ^ e) ++ str ".0"
  else
    let k := Z.to_nat (- e) in
    let digits := decimal (Z.pos m * 5 ^ (- e)) in
    let padded := repeat 48%N (S k - List.length digits) ++ digits in
    let split := List.length padded - k in
    firstn split padded ++ str "." ++ rev (rstrip_zeros (rev (skipn split padded))).

Definition float_repr (x : spec_float) : pystr :=
  match x with
  | S754_zero false => str "0.0"
  | S754_zero true => str "-0.0"
  | S754_infinity false => str "Infinity"
  | S754_infinity true => str "-Infinity"
  | S754_nan => str "NaN"
  | S754_finite false m e => float_digits m e
  | S754_finite true m e => str "-" ++ float_digits m e
  end.

Fixpoint dumps (v : value) : pystr :=
  match v with
  | VNone => str "null"
  | VBool true => str "true"
  | VBool false => str "false"
  | VInt n => decimal n
  | VFloat x => float_repr x
  | VStr s => quote s
  | VList xs =>
      str "[" ++
      (fix items (xs : list value) : pystr :=
         match xs with
         | [] => []
         | [x] => dumps x
         | x :: xs' => dumps x ++ str ", " ++ items xs'
         end) xs ++
      str "]"
  | VDict d =>
      str "{" ++
      (fix pairs (d : list (pystr * value)) : pystr :=
         match d with
         | [] => []
         | [(k, x)] => quote k ++ str ": " ++ dumps x
         | (k, x) :: d' => quote k ++ str ": " ++ dumps x ++ str ", " ++ pairs d'
         end) d ++
      str "}"
  end.

(** *** bytes.decode("utf-8", errors="replace") *)

Definition continuation (b : N) : bool := ((128 <=? b) && (b <=? 191))%N.

(** The range of the second byte after the lead byte [b0] of a sequence of
    three or four bytes. *)
Definition second_ok (b0 b1 : N) : bool :=
  (if b0 =? 224 then (160 <=? b1) && (b1 <=? 191)
   else if b0 =? 237 then (128 <=? b1) && (b1 <=? 159)
   else if b0 =? 240 then (144 <=? b1) && (b1 <=? 191)
   else if b0 =? 244 then (128 <=? b1) && (b1 <=? 143)
   else continuation b1)%N.

(** Each ill-formed sequence, up to the byte that breaks it, becomes one
    U+FFFD. *)
Fixpoint decode_codes (bs : list N) : pystr :=
  match bs with
  | [] => []
  | b0 :: r0 =>
      if (b0 <? 128)%N then b0 :: decode_codes r0
      else if ((194 <=? b0) && (b0 <=? 223))%N then
        match r0 with
        | b1 :: r1 =>
            if continuation b1
            then ((b0 - 192) * 64 + (b1 - 128))%N :: decode_codes r1
            else 65533%N :: decode_codes r0
        | [] => [65533%N]
        end
      else if ((224 <=? b0) && (b0 <=? 239))%N then
        match r0 with
        | b1 :: r1 =>
            if second_ok b0 b1 then
              match r1 with
              | b2 :: r2 =>
                  if continuation b2
                  then ((b0 - 224) * 4096 + (b1 - 128) * 64 + (b2 - 128))%N
                       :: decode_codes r2
                  else 65533%N :: decode_codes r1
              | [] => [65533%N]
              end
            else 65533%N :: decode_codes r0
        | [] => [65533%N]
        end
      else if ((240 <=? b0) && (b0 <=? 244))%N then
        match r0 with
        | b1 :: r1 =>
            if second_ok b0 b1 then
              match r1 with
              | b2 :: r2 =>
                  if continuation b2 then
                    match r2 with
                    | b3 :: r3 =>
                        if continuation b3
                        then ((b0 - 240) * 262144 + (b1 - 128) * 4096 +
                              (b2 - 128) * 64 + (b3 - 128))%N :: decode_codes r3
                        else 65533%N :: decode_codes r2
                    | [] => [65533%N]
                    end
                  else 65533%N :: decode_codes r1
              | [] => [65533%N]
              end
            else 65533%N :: decode_codes r0
        | [] => [65533%N]
        end
      else 65533%N :: decode_codes r0
  end.

Definition decode (data : list byte) : pystr := decode_codes (map Byte.to_N data).

(** The bytes of an ASCII text. *)
Definition bytes (s : string) : list byte := list_byte_of_string s.

(** A JSON text written with ['] for the double quote. *)
Definition text (s : string) : pystr :=
  map (fun c => if (c =? 39)%N then 34%N else c) (str s).

#[export] Instance python : Python := {|
  json_loads := loads;
  json_dumps := dumps;
  decode_utf8_replace := decode
|}.

(** *** gps3 and gpsd *)

Definition NA : value := VStr (str "n/a").

(** The [TPV] attribute of a [DataStream], with the entries the program
    reads.  Every entry is ['n/a'] in a new object, and a report of class
    TPV sets each entry to the value reported or to ['n/a']; other reports
    leave [TPV] as it is. *)
Definition tpv_unpack (new_data : pystr) (tpv : dict) : dict :=
  match loads new_data with
  | Some (VDict fresh_data) =>
      if eq_str (dict_get fresh_data (str "class") (VStr (str "ERROR"))) (str "TPV")
      then map (fun kv => (fst kv, dict_get fresh_data (fst kv) NA)) tpv
      else tpv
  | _ => tpv
  end.

#[export] Instance gps3 : Gps3 := {|
  DataStream := dict;
  new_DataStream := [(str "lat", NA); (str "lon", NA)];
  unpack := tpv_unpack;
  TPV := fun tpv => tpv
|}.

(** A gpsd session: a position, nothing pending, the end of the stream, an
    empty line, a report of another class, a report without a position, and
    nothing from then on. *)
Definition session : list next_result :=
  [Returned (Some (text "{'class':'TPV','mode':3,'lat':48,'lon':2}"));
   Returned None;
   Raised_StopIteration;
   Returned (Some []);
   Returned (Some (text "{'class':'SKY','hdop':1}"));
   Returned (Some (text "{'class':'TPV','mode':1}"))].

#[export] Instance gpsd : Gpsd := {|
  gps_next := fun n => nth n session (Returned None)
|}.

(** A gpsd with nothing to report at startup. *)
Definition silent_gpsd : Gpsd := {|
  gps_next := fun _ => Returned None
|}.

Definition mobile : Args :=
  {| serial := DEFAULT_SERIAL_PORT; baud := DEFAULT_BAUD_RATE;
     zmq_port := DEFAULT_ZMQ_PORT; stationary := false; debug := false |}.

Definition fixed : Args :=
  {| serial := DEFAULT_SERIAL_PORT; baud := DEFAULT_BAUD_RATE;
     zmq_port := DEFAULT_ZMQ_PORT; stationary := true; debug := false |}.

(** The bytes of a JSON text written with ['] for the double quote. *)
Definition json_bytes (s : string) : list byte :=
  map (fun b => match b with x27 => x22 | _ => b end) (bytes s).

(** *** Inputs *)

Definition alert_line : pystr :=
  text "{'type':'nodeAlert','msg':{'stat':'NEW CONTACT LOCK on 5.8GHz'}}".

Definition alert_record : dict :=
  [(str "type", VStr (str "nodeAlert"));
   (str "msg", VDict [(str "stat", VStr (str "NEW CONTACT LOCK on 5.8GHz"))])].

Definition boot_line : pystr := text "{'type':'nodeMsg','seq':7}".




(** A record that comes with coordinates of its own. *)
Definition located_line : pystr :=
  text "{'type':'track','gps_lat':'north','gps_lon':181}".

Definition located_record : dict :=
  [(str "type", VStr (str "track")); (str "gps_lat", VStr (str "north"));
   (str "gps_lon", VInt 181)].

(** A serial device: the port is not there, then it opens and delivers a
    blank line and a record, then it is unplugged, and from then on it works. *)
Definition device (n : nat) : reply :=
  match n with
  | 0 => Raise (SerialException (str "could not open port"))
  | 1 => Ok []
  | 2 => Ok [x20; x0d; x0a]
  | 3 => Ok (json_bytes "{'type':'nodeMsg','seq':7}" ++ [x0d; x0a])
  | 4 => Raise (SerialException (str "device disconnected"))
  | _ => Ok (json_bytes "  {'type':'nodeMsg','seq':7}" ++ [x0a])
  end.

(** A device that opens and is read three times: nothing within the
    timeout, a blank line, and a line with a byte that is not UTF-8. *)
Definition reads : list reply :=
  [Ok []; Ok []; Ok [x20; x0d; x0a]; Ok (bytes "  drone " ++ [xff; x0d; x0a])].

End Sample.

(** * Properties *)

Section Verification.

Context `{Python} `{Gps3} `{Gpsd}.

(** ** Strings and dicts *)

Lemma pystr_eqb_eq (a b : pystr) : pystr_eqb a b = true <-> a = b.
Proof.
  revert b; induction a as [|x a IH]; intros [|y b]; simpl; split; intro E;
    try reflexivity; try discriminate.
  - apply andb_true_iff in E as [E1 E2].
    apply N.eqb_eq in E1. apply IH in E2. congruence.
  - injection E as -> ->. rewrite N.eqb_refl. simpl. now apply IH.
Qed.

Lemma pystr_eqb_refl (a : pystr) : pystr_eqb a a = true.
Proof. now apply pystr_eqb_eq. Qed.

Lemma pystr_eqb_neq (a b : pystr) : a <> b -> pystr_eqb a b = false.
Proof.
  intro N. destruct (pystr_eqb a b) eqn:E; [|reflexivity].
  apply pystr_eqb_eq in E. contradiction.
Qed.

Lemma dict_lookup_set_same (d : dict) (k : pystr) (v : value) :
  dict_lookup (dict_set d k v) k = Some v.
Proof.
  induction d as [|[k' v'] d IH]; simpl.
  - now rewrite pystr_eqb_refl.
  - destruct (pystr_eqb k' k) eqn:E; simpl; rewrite E; [reflexivity | exact IH].
Qed.

Lemma dict_lookup_set_other (d : dict) (k k' : pystr) (v : value) :
  k' <> k -> dict_lookup (dict_set d k v) k' = dict_lookup d k'.
Proof.
  intro N. induction d as [|[k0 v0] d IH]; simpl.
  - rewrite pystr_eqb_neq; [reflexivity | congruence].
  - destruct (pystr_eqb k0 k) eqn:E; simpl.
    + apply pystr_eqb_eq in E. subst k0.
      rewrite pystr_eqb_neq; [reflexivity | congruence].
    + now rewrite IH.
Qed.

Lemma keys_dict_set (d : dict) (k x : pystr) (v : value) :
  In x (keys (dict_set d k v)) <-> In x (keys d) \/ x = k.
Proof.
  induction d as [|[k' v'] d IH]; simpl.
  - intuition congruence.
  - destruct (pystr_eqb k' k) eqn:E; simpl.
    + apply pystr_eqb_eq in E. subst k'. intuition congruence.
    + rewrite IH. tauto.
Qed.

(** A key that is there keeps its place: the field is replaced, not added. *)
Lemma keys_dict_set_present (d : dict) (k : pystr) (v : value) :
  In k (keys d) -> keys (dict_set d k v) = keys d.
Proof.
  induction d as [|[k' v'] d IH]; simpl; intro I; [contradiction|].
  destruct (pystr_eqb k' k) eqn:E; simpl; [reflexivity|].
  f_equal. apply IH. destruct I as [->|I]; [|exact I].
  now rewrite pystr_eqb_refl in E.
Qed.

Lemma dict_lookup_In (d : dict) (k : pystr) :
  dict_lookup d k <> None <-> In k (keys d).
Proof.
  induction d as [|[k' v'] d IH]; simpl; [tauto|].
  destruct (pystr_eqb k' k) eqn:E.
  - apply pystr_eqb_eq in E. split; [now left | discriminate].
  - rewrite IH. split; [now right | intros [->|I]; [|exact I]].
    now rewrite pystr_eqb_refl in E.
Qed.

Lemma startswith_iff (s prefix : pystr) :
  startswith s prefix = true <-> exists rest, s = prefix ++ rest.
Proof.
  revert s; induction prefix as [|p prefix IH]; intros s; simpl.
  - split; [intros _; now exists s | reflexivity].
  - destruct s as [|c s]; simpl.
    + split; [discriminate | intros [rest E]; discriminate].
    + rewrite andb_true_iff, N.eqb_eq, IH. split.
      * intros [-> [rest ->]]. now exists rest.
      * intros [rest E]. injection E as -> ->. split; [reflexivity | now exists rest].
Qed.

(** [contains] is the substring test. *)
Lemma contains_iff (needle hay : pystr) :
  contains needle hay = true <-> exists before after, hay = before ++ needle ++ after.
Proof.
  induction hay as [|c hay IH]; simpl.
  - rewrite orb_false_r, startswith_iff. split.
    + intros [rest E]. exists [], rest. exact E.
    + intros [[|b before] [after E]]; [now exists after | discriminate].
  - rewrite orb_true_iff, startswith_iff, IH. split.
    + intros [[rest E] | [before [after E]]].
      * exists [], rest. exact E.
      * exists (c :: before), after. simpl. now rewrite E.
    + intros [[|b before] [after E]].
      * left. now exists after.
      * right. injection E as -> ->. now exists before, after.
Qed.

Lemma lstrip_split (s : pystr) :
  exists spaces, s = spaces ++ lstrip s /\ forallb isspace spaces = true.
Proof.
  induction s as [|c s [spaces [E A]]]; simpl.
  - now exists [].
  - destruct (isspace c) eqn:W.
    + exists (c :: spaces). simpl. rewrite W, A. split; [congruence | reflexivity].
    + now exists [].
Qed.

Lemma lstrip_head (s rest : pystr) (c : N) :
  lstrip s = c :: rest -> isspace c = false.
Proof.
  induction s as [|x s IH]; simpl; [discriminate|].
  destruct (isspace x) eqn:W; [exact IH|].
  intro E. injection E as -> _. exact W.
Qed.

Lemma lstrip_blank (s : pystr) : forallb isspace s = true -> lstrip s = [].
Proof.
  induction s as [|c s IH]; simpl; [reflexivity|].
  intro A. apply andb_true_iff in A as [W A]. rewrite W. now apply IH.
Qed.

Lemma forallb_rev {A} (f : A -> bool) (l : list A) :
  forallb f (rev l) = forallb f l.
Proof.
  induction l as [|x l IH]; simpl; [reflexivity|].
  rewrite forallb_app, IH. simpl. rewrite andb_true_r. apply andb_comm.
Qed.

(** What [strip] removes is whitespace on both sides, and nothing else. *)
Lemma strip_split (s : pystr) :
  exists left right,
    s = left ++ strip s ++ right /\
    forallb isspace left = true /\ forallb isspace right = true.
Proof.
  unfold strip, rstrip.
  destruct (lstrip_split s) as [left [E1 A1]].
  destruct (lstrip_split (rev (lstrip s))) as [right [E2 A2]].
  exists left, (rev right). split; [|split].
  - rewrite E1 at 1. f_equal.
    rewrite <- (rev_involutive (lstrip s)) at 1.
    rewrite E2 at 1. now rewrite rev_app_distr.
  - exact A1.
  - now rewrite forallb_rev.
Qed.

(** A whitespace-only text strips to the empty string. *)
Lemma strip_blank (s : pystr) : forallb isspace s = true -> strip s = [].
Proof.
  intro A. unfold strip, rstrip. now rewrite (lstrip_blank s A).
Qed.

(** The stripped text neither starts nor ends with whitespace. *)
Lemma strip_trimmed (s rest : pystr) (c : N) :
  strip s = c :: rest ->
  isspace c = false /\ isspace (last (c :: rest) c) = false.
Proof.
  intro E. split.
  - unfold strip, rstrip in E.
    destruct (lstrip_split (rev (lstrip s))) as [right [E2 _]].
    assert (L : lstrip s = (c :: rest) ++ rev right).
    { rewrite <- (rev_involutive (lstrip s)). rewrite E2 at 1.
      now rewrite rev_app_distr, E. }
    simpl in L. now apply lstrip_head in L.
  - unfold strip, rstrip in E.
    destruct (lstrip (rev (lstrip s))) as [|x t] eqn:L; [discriminate|].
    apply lstrip_head in L. simpl in E.
    assert (R : last (c :: rest) c = x).
    { rewrite <- E. now rewrite last_last. }
    now rewrite R.
Qed.

(** ** The steps of one record *)

Lemma inspect_inspectable (d : dict) (st : state) :
  inspectable d = true ->
  exists tr, inspect (VDict d) st = (tr, st, inr tt) /\
             sent tr = [] /\ logged ERROR tr = [].
Proof.
  unfold inspectable, inspect, bind, method_get, ret, warning, emit. simpl.
  destruct (eq_str (dict_get d (str "type") (VStr (str ""))) (str "nodeMsg")).
  - intros _. eexists. split; [reflexivity | split; reflexivity].
  - destruct (eq_str (dict_get d (str "type") (VStr (str ""))) (str "nodeAlert")).
    + destruct (dict_get d (str "msg") (VDict [])) as [| | | | |xs|m];
        try discriminate.
      destruct (dict_get m (str "stat") (VStr (str ""))) as [| | | |t|xs|m'];
        try discriminate; intros _; simpl.
      all: repeat match goal with
             | |- context [if ?b then _ else _] => destruct b; simpl
             end.
      all: eexists; split; [reflexivity | split; reflexivity].
    + intros _. eexists. split; [reflexivity | split; reflexivity].
Qed.

Lemma inspect_unreadable (d : dict) (st : state) :
  inspectable d = false ->
  exists e, inspect (VDict d) st = ([], st, inl e) /\ e <> JSONDecodeError.
Proof.
  unfold inspectable, inspect, bind, method_get, ret, raise. simpl.
  destruct (eq_str (dict_get d (str "type") (VStr (str ""))) (str "nodeMsg"));
    [discriminate|].
  destruct (eq_str (dict_get d (str "type") (VStr (str ""))) (str "nodeAlert"));
    [|discriminate].
  destruct (dict_get d (str "msg") (VDict [])) as [| | | | |xs|m];
    try (intros _; eexists; split; [reflexivity | discriminate]).
  destruct (dict_get m (str "stat") (VStr (str ""))) as [| | | |t|xs|m'];
    try discriminate;
    intros _; eexists; (split; [reflexivity | discriminate]).
Qed.

Lemma inspect_not_dict (v : value) (st : state) :
  (forall d, v <> VDict d) ->
  inspect v st = ([], st, inl (AttributeError v (str "get"))).
Proof.
  intro N. destruct v; try reflexivity. now destruct (N items).
Qed.

Lemma locate_stationary (args : Args) (st : state) :
  stationary args = true ->
  locate args st = ([], st, inr (lat_cache st, lon_cache st)).
Proof.
  intro S. unfold locate, bind, get_state, ret. simpl. now rewrite S.
Qed.

Lemma locate_mobile (args : Args) (st : state) (sock : GPSDSocket) (ds : DataStream) :
  stationary args = false ->
  gps_socket st = Some sock ->
  data_stream st = Some ds ->
  locate args st =
    ([], {| gps_socket := Some sock;
            data_stream := Some (snd (fst (get_gps_location (polls st) ds)));
            lat_cache := lat_cache st;
            lon_cache := lon_cache st;
            polls := S (polls st) |},
     inr (fst (fst (get_gps_location (polls st) ds)))).
Proof.
  intros S G D. unfold locate, bind, get_state, put_state, ret. simpl.
  rewrite S, G, D. simpl.
  unfold get_gps_location.
  destruct (gps_next (polls st)) as [[new_data|]|]; try reflexivity.
  destruct (truthy new_data); reflexivity.
Qed.

(** [locate] always returns, logs nothing and sends nothing. *)
Lemma locate_returns (args : Args) (st : state) :
  locate args st = ([], state_of (locate args st), inr (position args st)).
Proof.
  unfold position, result_of, state_of.
  destruct (stationary args) eqn:S.
  - now rewrite locate_stationary.
  - destruct (gps_socket st) as [sock|] eqn:G.
    + destruct (data_stream st) as [ds|] eqn:D.
      * now rewrite (locate_mobile args st sock ds S G D).
      * unfold locate, bind, get_state, ret. simpl. now rewrite S, G, D.
    + unfold locate, bind, get_state, ret. simpl. now rewrite S, G.
Qed.

(** A line that is not JSON: one warning, nothing else. *)
Lemma process_line_malformed (args : Args) (line : pystr) (st : state) :
  json_loads line = None ->
  process_line args line st =
    ([Log WARNING [Txt (str "Failed to parse JSON: "); Txt line]], st, inr tt).
Proof.
  intro L. unfold process_line, try_except, handle, bind, raise, emit.
  now rewrite L.
Qed.

(** A line that is JSON and not an object: the generic handler. *)
Lemma process_line_not_dict (args : Args) (line : pystr) (v : value) (st : state) :
  json_loads line = Some v ->
  (forall d, v <> VDict d) ->
  process_line args line st =
    ([Log ERROR [Txt (str "Unexpected error: ");
                 Exc (AttributeError v (str "get"))]], st, inr tt).
Proof.
  intros L N. unfold process_line, try_except, handle, bind.
  rewrite L. unfold ret at 1. rewrite (inspect_not_dict v st N). reflexivity.
Qed.

(** An object whose status cannot be read: the generic handler. *)
Lemma process_line_unreadable (args : Args) (line : pystr) (d : dict) (st : state) :
  json_loads line = Some (VDict d) ->
  inspectable d = false ->
  exists e,
    process_line args line st =
      ([Log ERROR [Txt (str "Unexpected error: "); Exc e]], st, inr tt).
Proof.
  intros L U. destruct (inspect_unreadable d st U) as [e [I N]].
  exists e. unfold process_line, try_except, handle, bind.
  rewrite L. unfold ret at 1. rewrite I.
  destruct e; try reflexivity. now destruct N.
Qed.

(** An object whose status can be read: the alert log, then the record with
    the position, sent and logged. *)
Lemma process_line_accepted (args : Args) (line : pystr) (d : dict) (st : state) :
  json_loads line = Some (VDict d) ->
  inspectable d = true ->
  let json_message :=
    json_dumps (VDict (enriched d (fst (position args st)) (snd (position args st)))) in
  process_line args line st =
    (trace_of (inspect (VDict d) st) ++
     [Send json_message; Log DEBUG [Txt (str "Published: "); Txt json_message]],
     state_of (locate args st), inr tt).
Proof.
  intros L I. destruct (inspect_inspectable d st I) as [tr [E _]].
  unfold process_line, try_except, handle, bind.
  rewrite L. unfold ret at 1. rewrite E. unfold enrich, bind.
  rewrite locate_returns. reflexivity.
Qed.

(** The enrichment step alone, on any object. *)
Lemma enrich_dict (args : Args) (d : dict) (st : state) :
  let json_message :=
    json_dumps (VDict (enriched d (fst (position args st)) (snd (position args st)))) in
  enrich args (VDict d) st =
    ([Send json_message; Log DEBUG [Txt (str "Published: "); Txt json_message]],
     state_of (locate args st), inr tt).
Proof.
  unfold enrich, bind. rewrite locate_returns. reflexivity.
Qed.

(** One turn of the loop in terms of [accepted]: it never raises, it sends
    the enriched record of an accepted line and nothing for another line, and
    only an accepted line reaches [locate]. *)
Lemma process_line_summary (args : Args) (line : pystr) (st : state) :
  result_of (process_line args line st) = inr tt /\
  sent (trace_of (process_line args line st)) =
    match accepted line with
    | Some d =>
        [json_dumps (VDict (enriched d (fst (position args st))
                                       (snd (position args st))))]
    | None => []
    end /\
  state_of (process_line args line st) =
    match accepted line with
    | Some _ => state_of (locate args st)
    | None => st
    end.
Proof.
  unfold accepted.
  destruct (json_loads line) as [v|] eqn:L.
  - assert (D : (exists d, v = VDict d) \/ (forall d, v <> VDict d)).
    { destruct v; try (right; discriminate). left. now exists items. }
    destruct D as [[d ->] | N].
    + destruct (inspectable d) eqn:I.
      * rewrite (process_line_accepted args line d st L I).
        destruct (inspect_inspectable d st I) as [tr [E [S _]]].
        rewrite E. unfold trace_of, state_of, result_of. simpl.
        repeat split. clear E.
        induction tr as [|[lvl msg|sec|m] tr IH]; simpl in *;
          try discriminate; auto.
      * destruct (process_line_unreadable args line d st L I) as [e ->].
        repeat split.
    + rewrite (process_line_not_dict args line v st L N).
      destruct v; try (repeat split; fail). now destruct (N items).
  - rewrite (process_line_malformed args line st L). repeat split.
Qed.

Lemma sent_app (a b : list event) : sent (a ++ b) = sent a ++ sent b.
Proof.
  induction a as [|[lvl msg|sec|m] a IH]; simpl; try exact IH; try reflexivity.
  now rewrite IH.
Qed.

(** ** The loop *)

Lemma main_loop_cons (args : Args) (line : pystr) (lines : list pystr) (st : state) :
  main_loop args (line :: lines) st =
    (trace_of (process_line args line st) ++
     trace_of (main_loop args lines (state_of (process_line args line st))),
     state_of (main_loop args lines (state_of (process_line args line st))),
     result_of (main_loop args lines (state_of (process_line args line st)))).
Proof.
  simpl. unfold bind.
  destruct (process_line_summary args line st) as [R _].
  destruct (process_line args line st) as [[tr st'] r]. simpl in *. subst r.
  unfold trace_of, state_of, result_of. simpl.
  now destruct (main_loop args lines st') as [[tr' st''] r'].
Qed.

Lemma main_loop_cons_trace (args : Args) (line : pystr) (lines : list pystr) (st : state) :
  trace_of (main_loop args (line :: lines) st) =
    trace_of (process_line args line st) ++
    trace_of (main_loop args lines (state_of (process_line args line st))).
Proof. now rewrite main_loop_cons. Qed.

Lemma main_loop_cons_state (args : Args) (line : pystr) (lines : list pystr) (st : state) :
  state_of (main_loop args (line :: lines) st) =
    state_of (main_loop args lines (state_of (process_line args line st))).
Proof. now rewrite main_loop_cons. Qed.

(** The loop ends only with its lines: no record makes it raise. *)
Lemma main_loop_returns (args : Args) (lines : list pystr) (st : state) :
  result_of (main_loop args lines st) = inr tt.
Proof.
  revert st; induction lines as [|line lines IH]; intro st; [reflexivity|].
  rewrite main_loop_cons. apply IH.
Qed.

Lemma main_loop_app (args : Args) (a b : list pystr) (st : state) :
  trace_of (main_loop args (a ++ b) st) =
    trace_of (main_loop args a st) ++
    trace_of (main_loop args b (state_of (main_loop args a st))) /\
  state_of (main_loop args (a ++ b) st) =
    state_of (main_loop args b (state_of (main_loop args a st))).
Proof.
  revert st; induction a as [|line a IH]; intro st; [now split|].
  rewrite <- app_comm_cons.
  rewrite !main_loop_cons_trace, !main_loop_cons_state.
  destruct (IH (state_of (process_line args line st))) as [T S].
  rewrite T, S. now rewrite app_assoc.
Qed.

Lemma main_unfold (args : Args) (lines : list pystr) :
  trace_of (main args lines) =
    fst (startup args) ++ trace_of (main_loop args lines (snd (startup args))) /\
  state_of (main args lines) = state_of (main_loop args lines (snd (startup args))) /\
  result_of (main args lines) = inr tt.
Proof.
  unfold main. destruct (startup args) as [tr0 st0]. simpl.
  pose proof (main_loop_returns args lines st0) as R.
  destruct (main_loop args lines st0) as [[tr st] r]. now split.
Qed.

Lemma reached_state (args : Args) (before : list pystr) :
  reached args before = state_of (main_loop args before (snd (startup args))).
Proof.
  unfold reached. destruct (main_unfold args before) as [_ [S _]].
  rewrite <- S. unfold state_of. now destruct (main args before) as [[tr st] r].
Qed.

Lemma get_gps_location_polls (n : nat) (ds : DataStream) :
  snd (get_gps_location n ds) = S n.
Proof.
  unfold get_gps_location.
  destruct (gps_next n) as [[new_data|]|]; try reflexivity.
  now destruct (truthy new_data).
Qed.

(** In stationary mode the loop leaves the state as startup made it. *)
Lemma main_loop_stationary (args : Args) (lines : list pystr) (st : state) :
  stationary args = true ->
  state_of (main_loop args lines st) = st /\
  sent (trace_of (main_loop args lines st)) =
    map (fun d => json_dumps (VDict (enriched d (lat_cache st) (lon_cache st))))
        (accepted_records lines).
Proof.
  intro S. induction lines as [|line lines [IS IT]]; [now split|].
  rewrite main_loop_cons_trace, main_loop_cons_state.
  destruct (process_line_summary args line st) as [_ [T E]].
  assert (E' : state_of (process_line args line st) = st).
  { rewrite E. destruct (accepted line); [|reflexivity].
    now rewrite locate_stationary. }
  rewrite E'. split; [exact IS|].
  rewrite sent_app, T, IT. simpl accepted_records.
  destruct (accepted line); [|reflexivity].
  unfold position, result_of. now rewrite locate_stationary.
Qed.


(** A line that is not accepted can be taken out of the input: the state
    and what is sent are the same without it. *)
Lemma main_loop_drop (args : Args) (line : pystr) :
  accepted line = None ->
  forall before after st,
    sent (trace_of (main_loop args (before ++ line :: after) st)) =
      sent (trace_of (main_loop args (before ++ after) st)) /\
    state_of (main_loop args (before ++ line :: after) st) =
      state_of (main_loop args (before ++ after) st).
Proof.
  intros A before after st.
  destruct (main_loop_app args before (line :: after) st) as [T1 S1].
  destruct (main_loop_app args before after st) as [T2 S2].
  rewrite T1, T2, S1, S2, !sent_app.
  rewrite main_loop_cons_trace, main_loop_cons_state, sent_app.
  destruct (process_line_summary args line (state_of (main_loop args before st)))
    as [_ [T E]].
  rewrite A in T, E. rewrite T, E. now split.
Qed.

(** ** The claims about one record *)


(** C9.  A line that is valid JSON and not an object makes the body raise
    [AttributeError] at [data.get], which is not the parse error; the generic
    handler logs it as an unexpected error, nothing is sent, the parse
    warning is not logged, the state is as before and the lines after it are
    processed as without it. *)
Theorem non_object_is_dropped (args : Args) (line : pystr) (v : value) (st : state) :
  json_loads line = Some v ->
  (forall d, v <> VDict d) ->
  result_of (handle args line st) = inl (AttributeError v (str "get")) /\
  process_line args line st =
    ([Log ERROR [Txt (str "Unexpected error: ");
                 Exc (AttributeError v (str "get"))]], st, inr tt) /\
  sent (trace_of (process_line args line st)) = [] /\
  logged WARNING (trace_of (process_line args line st)) = [] /\
  (forall before after st0,
     sent (trace_of (main_loop args (before ++ line :: after) st0)) =
       sent (trace_of (main_loop args (before ++ after) st0)) /\
     state_of (main_loop args (before ++ line :: after) st0) =
       state_of (main_loop args (before ++ after) st0)).
Proof.
  intros L N. rewrite (process_line_not_dict args line v st L N).
  assert (A : accepted line = None).
  { unfold accepted. rewrite L. destruct v; try reflexivity. now destruct (N items). }
  repeat split.
  - unfold handle, bind. rewrite L. unfold ret at 1.
    now rewrite (inspect_not_dict v st N).
  - now apply main_loop_drop.
  - now apply main_loop_drop.
Qed.

(** ** The enriched record *)

Lemma gps_keys_differ : str "gps_lon" <> str "gps_lat".
Proof. intro E. vm_compute in E. discriminate. Qed.

Lemma enriched_lat (d : dict) (lat lon : value) :
  dict_lookup (enriched d lat lon) (str "gps_lat") = Some lat.
Proof.
  unfold enriched. rewrite dict_lookup_set_other.
  - apply dict_lookup_set_same.
  - intro E. now apply gps_keys_differ.
Qed.

Lemma enriched_lon (d : dict) (lat lon : value) :
  dict_lookup (enriched d lat lon) (str "gps_lon") = Some lon.
Proof. unfold enriched. apply dict_lookup_set_same. Qed.



(** ** Positions *)

Lemma startup_stationary (args : Args) :
  stationary args = true ->
  snd (startup args) =
    {| gps_socket := None; data_stream := None;
       lat_cache := fst (fst (fst (get_gps_location 0 new_DataStream)));
       lon_cache := snd (fst (fst (get_gps_location 0 new_DataStream)));
       polls := 1 |}.
Proof.
  intro S. unfold startup. rewrite S. simpl.
  pose proof (get_gps_location_polls 0 new_DataStream) as P.
  destruct (get_gps_location 0 new_DataStream) as [[[lat lon] ds] n].
  simpl in *. now subst n.
Qed.


Lemma get_gps_location_no_pending (n : nat) (ds : DataStream) :
  no_pending (gps_next n) = true ->
  get_gps_location n ds = ((zero_float, zero_float), ds, S n).
Proof.
  unfold get_gps_location, no_pending.
  destruct (gps_next n) as [[[|c new_data]|]|]; try reflexivity. discriminate.
Qed.

(** ** The claims about the position *)

(** C3.  In stationary mode [gps_socket.next()] is called once, at startup,
    and never in the loop; the messages sent over the whole run are the
    accepted records of the input, each with the pair read at startup, so
    every one of them has that same [gps_lat] and that same [gps_lon]. *)
Theorem stationary_position_is_shared (args : Args) (lines : list pystr) :
  stationary args = true ->
  let startup_fix := fst (fst (get_gps_location 0 new_DataStream)) in
  polls (state_of (main args lines)) = 1 /\
  sent (trace_of (main args lines)) =
    map (fun d => json_dumps (VDict (enriched d (fst startup_fix) (snd startup_fix))))
        (accepted_records lines) /\
  (forall d,
     dict_lookup (enriched d (fst startup_fix) (snd startup_fix)) (str "gps_lat") =
       Some (fst startup_fix) /\
     dict_lookup (enriched d (fst startup_fix) (snd startup_fix)) (str "gps_lon") =
       Some (snd startup_fix)).
Proof.
  intros S startup_fix.
  destruct (main_unfold args lines) as [T [E _]].
  destruct (main_loop_stationary args lines (snd (startup args)) S) as [E' T'].
  rewrite T, E, E', sent_app, T', (startup_stationary args S).
  repeat split.
  - apply enriched_lat.
  - apply enriched_lon.
Qed.


(** ** Where the coordinates come from *)







(** ** The claims about the published record *)



(** ** Overwriting *)

Lemma In_keys (d : dict) (k : pystr) (v : value) : In (k, v) d -> In k (keys d).
Proof. intro I. unfold keys. now apply (in_map fst) in I. Qed.

(** After [d[k] = v] no item of [d] under [k] has another value. *)
Lemma dict_set_overwrites (d : dict) (k : pystr) (v v' : value) :
  NoDup (keys d) -> In (k, v') (dict_set d k v) -> v' = v.
Proof.
  induction d as [|[k0 v0] d IH]; simpl; intros U I.
  - destruct I as [E|[]]. congruence.
  - inversion U as [|? ? Fresh U']; subst.
    destruct (pystr_eqb k0 k) eqn:E.
    + apply pystr_eqb_eq in E. subst k0.
      destruct I as [E|I]; [congruence|].
      destruct Fresh. now apply In_keys in I.
    + destruct I as [E'|I]; [|now apply IH].
      injection E' as -> _. now rewrite pystr_eqb_refl in E.
Qed.

Lemma dict_set_keeps (d : dict) (k k' : pystr) (v v' : value) :
  k' <> k -> In (k', v') (dict_set d k v) -> In (k', v') d.
Proof.
  intro N. induction d as [|[k0 v0] d IH]; simpl.
  - intros [E|[]]. congruence.
  - destruct (pystr_eqb k0 k) eqn:E.
    + apply pystr_eqb_eq in E. subst k0.
      intros [E'|I]; [congruence | now right].
    + intros [E'|I]; [now left | right; now apply IH].
Qed.

Lemma dict_set_NoDup (d : dict) (k : pystr) (v : value) :
  NoDup (keys d) -> NoDup (keys (dict_set d k v)).
Proof.
  induction d as [|[k0 v0] d IH]; simpl; intro U.
  - constructor; [intros [] | constructor].
  - inversion U as [|? ? Fresh U']; subst.
    destruct (pystr_eqb k0 k) eqn:E; simpl; [exact U|].
    constructor; [|now apply IH].
    intro I. apply keys_dict_set in I as [I | ->]; [contradiction|].
    now rewrite pystr_eqb_refl in E.
Qed.

Lemma dict_set_length (d : dict) (k : pystr) (v : value) :
  List.length (dict_set d k v) <= S (List.length d) /\
  (In k (keys d) -> List.length (dict_set d k v) = List.length d).
Proof.
  induction d as [|[k0 v0] d [IL IP]]; simpl.
  - split; [lia | intros []].
  - destruct (pystr_eqb k0 k) eqn:E; simpl; [split; [lia | reflexivity]|].
    split; [lia|]. intros [->|I]; [now rewrite pystr_eqb_refl in E|].
    now rewrite IP.
Qed.

(** C10.  A JSON object that has a field [gps_lat] or [gps_lon] of its own
    goes through the enrichment step like any other: the step sends one
    message, the record with both fields set to the position taken in that
    step.  In that record no item under [gps_lat] or [gps_lon] has another
    value than the position, whatever the input held; the field that was
    there is replaced, so that at most one field is new; and a message sent
    for the line is that record. *)
Theorem own_coordinates_are_overwritten
  (args : Args) (line : pystr) (d : dict) (st : state) :
  json_loads line = Some (VDict d) ->
  NoDup (keys d) ->
  In (str "gps_lat") (keys d) \/ In (str "gps_lon") (keys d) ->
  let lat := fst (position args st) in
  let lon := snd (position args st) in
  let json_message := json_dumps (VDict (enriched d lat lon)) in
  enrich args (VDict d) st =
    ([Send json_message; Log DEBUG [Txt (str "Published: "); Txt json_message]],
     state_of (locate args st), inr tt) /\
  dict_lookup (enriched d lat lon) (str "gps_lat") = Some lat /\
  dict_lookup (enriched d lat lon) (str "gps_lon") = Some lon /\
  (forall v, In (str "gps_lat", v) (enriched d lat lon) -> v = lat) /\
  (forall v, In (str "gps_lon", v) (enriched d lat lon) -> v = lon) /\
  List.length (enriched d lat lon) <= S (List.length d) /\
  (forall m, In m (sent (trace_of (process_line args line st))) -> m = json_message).
Proof.
  intros L U Own lat lon json_message.
  split; [apply enrich_dict|].
  split; [apply enriched_lat|].
  split; [apply enriched_lon|].
  split; [|split; [|split]].
  - intros v I. unfold enriched in I.
    apply dict_set_keeps in I; [|intro E; now apply gps_keys_differ].
    now apply dict_set_overwrites in I.
  - intros v I. unfold enriched in I.
    apply dict_set_overwrites in I; [exact I|]. now apply dict_set_NoDup.
  - unfold enriched.
    destruct (dict_set_length d (str "gps_lat") lat) as [L1 P1].
    destruct (dict_set_length (dict_set d (str "gps_lat") lat) (str "gps_lon") lon)
      as [L2 P2].
    destruct Own as [Own|Own].
    + rewrite P1 in L2 by exact Own. exact L2.
    + rewrite P2; [exact L1|]. apply keys_dict_set. now left.
  - intros m I.
    destruct (process_line_summary args line st) as [_ [T _]].
    rewrite T in I. unfold accepted in I. rewrite L in I.
    destruct (inspectable d); simpl in I; [|contradiction].
    destruct I as [<-|[]]. reflexivity.
Qed.

(** ** The alert log *)

Lemma eq_str_inv (v : value) (s : pystr) : eq_str v s = true -> v = VStr s.
Proof.
  destruct v; simpl; try discriminate. intro E. apply pystr_eqb_eq in E. now subst.
Qed.

(** The status the code reads is [status_text]. *)
Lemma status_text_read (d : dict) (s : pystr) :
  status_text d = Some s ->
  exists m, dict_get d (str "msg") (VDict []) = VDict m /\
            dict_get m (str "stat") (VStr (str "")) = VStr s.
Proof.
  unfold status_text, dict_get.
  destruct (dict_lookup d (str "msg")) as [[| | | | | |m]|]; try discriminate;
    intro E.
  - exists m. split; [reflexivity|].
    destruct (dict_lookup m (str "stat")) as [[| | | |t| |]|]; try discriminate;
      injection E as <-; reflexivity.
  - injection E as <-. exists []. split; reflexivity.
Qed.

Lemma inspect_alert (d : dict) (s : pystr) (st : state) :
  eq_str (dict_get d (str "type") (VStr (str ""))) (str "nodeAlert") = true ->
  status_text d = Some s ->
  inspect (VDict d) st = (alert_entry s, st, inr tt).
Proof.
  intros T S. apply eq_str_inv in T.
  destruct (status_text_read d s S) as [m [M R]].
  unfold inspect, bind, method_get, ret. simpl.
  rewrite T, M. simpl. rewrite R. simpl.
  unfold alert_entry, first_match. simpl.
  destruct (contains (str "NEW CONTACT LOCK") s); [reflexivity|].
  destruct (contains (str "LOCK UPDATE") s); [reflexivity|].
  destruct (contains (str "LOST CONTACT LOCK") s); reflexivity.
Qed.

(** C7.  For a record of type ["nodeAlert"] whose status is a text, or is
    absent, the three substrings are looked for in the order NEW CONTACT
    LOCK, LOCK UPDATE, LOST CONTACT LOCK, and the first one found decides the
    one warning that is logged; when none is found nothing is logged before
    the record is sent.  When [msg] is absent the status read is the empty
    string: nothing is raised, nothing is logged and the record is sent. *)
Theorem alert_log_is_first_match
  (args : Args) (line : pystr) (d : dict) (s : pystr) (st : state) :
  json_loads line = Some (VDict d) ->
  eq_str (dict_get d (str "type") (VStr (str ""))) (str "nodeAlert") = true ->
  status_text d = Some s ->
  let json_message :=
    json_dumps (VDict (enriched d (fst (position args st)) (snd (position args st)))) in
  inspect (VDict d) st = (alert_entry s, st, inr tt) /\
  trace_of (process_line args line st) =
    alert_entry s ++
    [Send json_message; Log DEBUG [Txt (str "Published: "); Txt json_message]] /\
  (contains (str "NEW CONTACT LOCK") s = true ->
   alert_entry s = [Log WARNING [Txt (str "New FPV Drone detected!")]]) /\
  (contains (str "NEW CONTACT LOCK") s = false ->
   contains (str "LOCK UPDATE") s = true ->
   alert_entry s = [Log WARNING [Txt (str "FPV Drone still in view.")]]) /\
  (contains (str "NEW CONTACT LOCK") s = false ->
   contains (str "LOCK UPDATE") s = false ->
   contains (str "LOST CONTACT LOCK") s = true ->
   alert_entry s = [Log WARNING [Txt (str "FPV Drone signal lost.")]]) /\
  (contains (str "NEW CONTACT LOCK") s = false ->
   contains (str "LOCK UPDATE") s = false ->
   contains (str "LOST CONTACT LOCK") s = false ->
   alert_entry s = []) /\
  (dict_lookup d (str "msg") = None -> s = [] /\ alert_entry s = []).
Proof.
  intros L T S json_message.
  pose proof (inspect_alert d s st T S) as I.
  assert (A : inspectable d = true).
  { unfold inspectable. rewrite T.
    destruct (status_text_read d s S) as [m [-> ->]].
    now destruct (eq_str (dict_get d (str "type") (VStr (str ""))) (str "nodeMsg")). }
  split; [exact I|].
  split.
  { rewrite (process_line_accepted args line d st L A), I. reflexivity. }
  unfold alert_entry, first_match. simpl.
  split; [now intros ->|].
  split; [now intros -> ->|].
  split; [now intros -> -> ->|].
  split; [now intros -> -> ->|].
  intro Absent. unfold status_text in S. rewrite Absent in S.
  injection S as <-. now split.
Qed.

(** ** The generator *)

Lemma truthy_nonempty (s : pystr) : truthy s = true <-> s <> [].
Proof. destruct s; simpl; split; congruence. Qed.

(** A transport failure: the error is logged, the generator sleeps
    [RECONNECT_DELAY] seconds and goes back to opening the port. *)
Lemma read_serial_failure (args : Args) (g : gen_state) (e : pystr) :
  g <> Terminated ->
  read_serial args g (Raise (SerialException e)) =
    (Connecting,
     [Log ERROR [Txt (str "Serial connection error: "); Exc (SerialException e);
                 Txt (str ". Reconnecting in "); Num 5; Txt (str " seconds...")];
      Sleep 5],
     None).
Proof. destruct g; [reflexivity | reflexivity | contradiction]. Qed.

(** After a reply that is a success the generator is reading lines. *)
Lemma read_serial_success (args : Args) (g : gen_state) (data : list byte) :
  g <> Terminated -> fst (fst (read_serial args g (Ok data))) = Streaming.
Proof.
  destruct g; simpl; [reflexivity | | contradiction].
  now destruct (truthy _).
Qed.

Lemma read_serial_alive (args : Args) (g : gen_state) (r : reply) :
  transport_only r = true -> g <> Terminated ->
  fst (fst (read_serial args g r)) <> Terminated.
Proof.
  destruct r as [data|e]; simpl; intros T N.
  - now rewrite read_serial_success.
  - destruct g; simpl; try contradiction; rewrite T; discriminate.
Qed.

Lemma generator_after_step (args : Args) (g : gen_state) (r : reply) (rs : list reply) :
  generator_after args g (r :: rs) =
    generator_after args (fst (fst (read_serial args g r))) rs.
Proof. simpl. now destruct (read_serial args g r) as [[g' tr] y]. Qed.

Lemma yielded_lines_step (args : Args) (g : gen_state) (r : reply) (rs : list reply) :
  yielded_lines args g (r :: rs) =
    match snd (read_serial args g r) with
    | Some line => [line]
    | None => []
    end ++ yielded_lines args (fst (fst (read_serial args g r))) rs.
Proof. simpl. now destruct (read_serial args g r) as [[g' tr] [line|]]. Qed.

Lemma generator_after_app (args : Args) (g : gen_state) (a b : list reply) :
  generator_after args g (a ++ b) =
    generator_after args (generator_after args g a) b.
Proof.
  revert g; induction a as [|r a IH]; intro g; [reflexivity|].
  rewrite <- app_comm_cons, !generator_after_step. apply IH.
Qed.

Lemma yielded_lines_app (args : Args) (g : gen_state) (a b : list reply) :
  yielded_lines args g (a ++ b) =
    yielded_lines args g a ++ yielded_lines args (generator_after args g a) b.
Proof.
  revert g; induction a as [|r a IH]; intro g; [reflexivity|].
  rewrite <- app_comm_cons, !yielded_lines_step, generator_after_step, IH.
  now rewrite app_assoc.
Qed.

Lemma generator_alive (args : Args) (g : gen_state) (rs : list reply) :
  forallb transport_only rs = true -> g <> Terminated ->
  generator_after args g rs <> Terminated.
Proof.
  revert g; induction rs as [|r rs IH]; intros g A N; [exact N|].
  simpl in A. apply andb_true_iff in A as [T A].
  rewrite generator_after_step. apply IH; [exact A|].
  now apply read_serial_alive.
Qed.

Lemma first_replies_add (device : nat -> reply) (n m : nat) :
  first_replies device (n + m) = first_replies device n ++ map device (seq n m).
Proof. unfold first_replies. now rewrite seq_app, map_app. Qed.

Lemma first_replies_S (device : nat -> reply) (n : nat) :
  first_replies device (S n) = first_replies device n ++ [device n].
Proof.
  replace (S n) with (n + 1) by lia. now rewrite first_replies_add.
Qed.

Lemma first_replies_transport (device : nat -> reply) (n : nat) :
  (forall i, transport_only (device i) = true) ->
  forallb transport_only (first_replies device n) = true.
Proof.
  intro T. unfold first_replies. apply forallb_forall.
  intros r I. apply in_map_iff in I as [i [<- _]]. apply T.
Qed.

(** What the consumer sends during a run of the generator is what the loop
    sends on the lines yielded: every yielded line gets its turn. *)
Lemma drive_sent (args : Args) (g : gen_state) (st : state) (rs : list reply) :
  sent (fst (drive args g st rs)) =
    sent (trace_of (main_loop args (yielded_lines args g rs) st)).
Proof.
  revert g st; induction rs as [|r rs IH]; intros g st; [reflexivity|].
  rewrite yielded_lines_step. simpl drive.
  assert (Quiet : sent (snd (fst (read_serial args g r))) = []).
  { destruct g, r as [data|e]; simpl; try reflexivity;
      try (destruct (is_SerialException e); reflexivity).
    now destruct (truthy _). }
  destruct (read_serial args g r) as [[g' tr] [line|]]; cbn [fst snd app] in *.
  - rewrite main_loop_cons_trace. unfold trace_of at 1, state_of.
    destruct (process_line args line st) as [[tr' st'] res].
    specialize (IH g' st').
    destruct (drive args g' st' rs) as [rest final]. cbn [fst snd] in *.
    now rewrite !sent_app, Quiet, IH.
  - specialize (IH g' st).
    destruct (drive args g' st rs) as [rest final]. cbn [fst snd] in *.
    now rewrite sent_app, Quiet, IH.
Qed.

(** A yielded line is the stripped text of some read, and is not empty. *)
Lemma yielded_lines_source (args : Args) (g : gen_state) (rs : list reply) (line : pystr) :
  In line (yielded_lines args g rs) ->
  exists data, In (Ok data) rs /\
               line = strip (decode_utf8_replace data) /\ line <> [].
Proof.
  revert g; induction rs as [|r rs IH]; intros g I; [contradiction|].
  rewrite yielded_lines_step in I. apply in_app_or in I as [I|I].
  - destruct g, r as [data|e]; simpl in I; try contradiction;
      try (destruct (is_SerialException e); contradiction).
    destruct (truthy (strip (decode_utf8_replace data))) eqn:T; simpl in I;
      [|contradiction].
    destruct I as [<-|[]]. exists data.
    split; [now left | split; [reflexivity | now apply truthy_nonempty]].
  - destruct (IH _ I) as [data [I' E]]. exists data. split; [now right | exact E].
Qed.

Lemma last_default {A} (l : list A) (a b : A) : l <> [] -> last l a = last l b.
Proof.
  induction l as [|x l IH]; intro N; [contradiction|].
  destruct l as [|y l]; [reflexivity|].
  change (last (y :: l) a = last (y :: l) b). now apply IH.
Qed.

(** ** The claims about the stream *)

(** C5.  As long as the serial device only succeeds or fails with
    [SerialException], the generator never ends; a failure of an open or of
    a read is logged, followed by a sleep of 5 seconds and a new attempt to
    open the port; a non-empty line read right after a successful reply is
    yielded, whatever failures came before, and every yielded line gets its
    turn in the loop of [main]; and on a device that keeps delivering, the
    number of lines yielded grows beyond every bound. *)
Theorem read_serial_self_heals (args : Args) (device : nat -> reply) :
  (forall i, transport_only (device i) = true) ->
  (forall n, generator_after args Connecting (first_replies device n) <> Terminated) /\
  (forall n e,
     device n = Raise (SerialException e) ->
     read_serial args (generator_after args Connecting (first_replies device n))
                 (device n) =
       (Connecting,
        [Log ERROR [Txt (str "Serial connection error: "); Exc (SerialException e);
                    Txt (str ". Reconnecting in "); Num 5; Txt (str " seconds...")];
         Sleep 5],
        None) /\
     generator_after args Connecting (first_replies device (S n)) = Connecting) /\
  (forall n opened data,
     device n = Ok opened ->
     device (S n) = Ok data ->
     truthy (strip (decode_utf8_replace data)) = true ->
     yielded_lines args Connecting (first_replies device (S (S n))) =
       yielded_lines args Connecting (first_replies device (S n)) ++
       [strip (decode_utf8_replace data)]) /\
  (forall n st,
     sent (fst (drive args Connecting st (first_replies device n))) =
       sent (trace_of (main_loop args
                         (yielded_lines args Connecting (first_replies device n)) st))) /\
  ((forall n, exists i opened data,
       n <= i /\ device i = Ok opened /\ device (S i) = Ok data /\
       truthy (strip (decode_utf8_replace data)) = true) ->
   forall k, exists n,
     k <= List.length (yielded_lines args Connecting (first_replies device n))).
Proof.
  intro T.
  assert (Alive : forall n,
             generator_after args Connecting (first_replies device n) <> Terminated).
  { intro n. apply generator_alive; [now apply first_replies_transport | discriminate]. }
  assert (Delivered : forall n opened data,
             device n = Ok opened ->
             device (S n) = Ok data ->
             truthy (strip (decode_utf8_replace data)) = true ->
             yielded_lines args Connecting (first_replies device (S (S n))) =
               yielded_lines args Connecting (first_replies device (S n)) ++
               [strip (decode_utf8_replace data)]).
  { intros n opened data O R Y.
    rewrite (first_replies_S device (S n)), yielded_lines_app. f_equal.
    rewrite first_replies_S, generator_after_app. simpl generator_after at 1.
    rewrite O, R.
    pose proof (read_serial_success args _ opened (Alive n)) as G.
    destruct (read_serial args _ (Ok opened)) as [[g' tr] y]. simpl in G. subst g'.
    simpl. now rewrite Y. }
  split; [exact Alive|].
  split; [|split; [exact Delivered | split; [intros n st; apply drive_sent|]]].
  - intros n e F. rewrite F.
    rewrite (read_serial_failure args _ e (Alive n)). split; [reflexivity|].
    rewrite first_replies_S, generator_after_app. simpl. rewrite F.
    now rewrite (read_serial_failure args _ e (Alive n)).
  - intros Live k. induction k as [|k [n IH]]; [exists 0; simpl; lia|].
    destruct (Live n) as [i [opened [data [Le [O [R Y]]]]]].
    exists (S (S i)). rewrite (Delivered i opened data O R Y).
    rewrite length_app. cbn [List.length].
    replace (S i) with (n + (S i - n)) by lia.
    rewrite first_replies_add, yielded_lines_app, length_app. lia.
Qed.

(** C6.  A line the generator yields is the text of a read, decoded and
    stripped, and it is not empty; it neither starts nor ends with
    whitespace.  A read whose stripped text is empty, as that of a text of
    whitespace only is, yields nothing and logs nothing: the generator goes
    on to the next read. *)
Theorem yielded_lines_are_stripped_and_nonempty
  (args : Args) (g : gen_state) (replies : list reply) (line : pystr) :
  In line (yielded_lines args g replies) ->
  line <> [] /\
  (exists data, In (Ok data) replies /\ line = strip (decode_utf8_replace data)) /\
  isspace (hd 0%N line) = false /\
  isspace (last line 0%N) = false /\
  (forall data,
     strip (decode_utf8_replace data) = [] ->
     read_serial args Streaming (Ok data) = (Streaming, [], None)) /\
  (forall data,
     forallb isspace (decode_utf8_replace data) = true ->
     read_serial args Streaming (Ok data) = (Streaming, [], None)).
Proof.
  intro I. destruct (yielded_lines_source args g replies line I) as [data [S [E N]]].
  split; [exact N|].
  split; [now exists data|].
  assert (Skip : forall data',
             strip (decode_utf8_replace data') = [] ->
             read_serial args Streaming (Ok data') = (Streaming, [], None)).
  { intros data' B. simpl. now rewrite B. }
  destruct line as [|c rest]; [contradiction|].
  destruct (strip_trimmed (decode_utf8_replace data) rest c (eq_sym E)) as [W1 W2].
  split; [exact W1|].
  split.
  - rewrite <- W2. f_equal. now apply last_default.
  - split; [exact Skip|].
    intros data' B. apply Skip. now apply strip_blank.
Qed.

(** * Further properties of the program *)

(** ** What the loop sends and what it asks of gpsd *)


Lemma pending_reports_S (start count : nat) :
  pending_reports start (S count) =
    pending_reports start 1 ++ pending_reports (S start) count.
Proof.
  simpl. now destruct (gps_next start) as [[[|c new_data]|]|].
Qed.

(** [get_gps_location] unpacks the report pending at its call, if any. *)
Lemma get_gps_location_stream (n : nat) (ds : DataStream) :
  snd (fst (get_gps_location n ds)) =
    fold_left (fun ds raw => unpack raw ds) (pending_reports n 1) ds.
Proof.
  unfold get_gps_location. simpl.
  now destruct (gps_next n) as [[[|c new_data]|]|].
Qed.

(** In continuous mode the socket stays, gpsd is asked once for each accepted
    line, and the data stream has unpacked the reports that were pending at
    these calls, in their order. *)
Lemma main_loop_mobile_state
  (args : Args) (lines : list pystr) (st : state) (sock : GPSDSocket) (ds : DataStream) :
  stationary args = false ->
  gps_socket st = Some sock ->
  data_stream st = Some ds ->
  gps_socket (state_of (main_loop args lines st)) = Some sock /\
  polls (state_of (main_loop args lines st)) =
    polls st + List.length (accepted_records lines) /\
  data_stream (state_of (main_loop args lines st)) =
    Some (fold_left (fun ds raw => unpack raw ds)
            (pending_reports (polls st) (List.length (accepted_records lines))) ds).
Proof.
  intro S. revert st ds; induction lines as [|line lines IH]; intros st ds G D.
  - simpl. unfold state_of. simpl. repeat split; [exact G | lia | exact D].
  - rewrite main_loop_cons_state.
    destruct (process_line_summary args line st) as [_ [_ E]].
    rewrite E. simpl accepted_records.
    destruct (accepted line) as [d|]; [|now apply IH].
    pose (st1 := {| gps_socket := Some sock;
                    data_stream := Some (snd (fst (get_gps_location (polls st) ds)));
                    lat_cache := lat_cache st;
                    lon_cache := lon_cache st;
                    polls := Datatypes.S (polls st) |}).
    assert (L : state_of (locate args st) = st1)
      by now rewrite (locate_mobile args st sock ds S G D).
    rewrite L.
    destruct (IH st1 (snd (fst (get_gps_location (polls st) ds))) eq_refl eq_refl)
      as [G' [P' D']].
    rewrite G', P', D'. subst st1. cbn [polls List.length].
    repeat split; [lia|].
    rewrite pending_reports_S, fold_left_app, get_gps_location_stream.
    reflexivity.
Qed.

(** gpsd is asked once at startup in stationary mode and never again; in
    continuous mode it is asked once for each accepted line, and not for a
    line that is dropped. *)
Theorem gpsd_is_asked_once_per_record (args : Args) (lines : list pystr) :
  polls (reached args lines) =
    if stationary args then 1 else List.length (accepted_records lines).
Proof.
  rewrite reached_state. destruct (stationary args) eqn:S.
  - destruct (main_loop_stationary args lines (snd (startup args)) S) as [-> _].
    now rewrite (startup_stationary args S).
  - destruct (main_loop_mobile_state args lines (snd (startup args))
                Connected new_DataStream S) as [_ [P _]];
      try (unfold startup; rewrite S; reflexivity).
    rewrite P. unfold startup. now rewrite S.
Qed.

(** In continuous mode the data stream that [main] holds after a run has
    unpacked the reports gpsd had pending at the calls made for the accepted
    lines, each once and in order, starting from a new [DataStream]. *)
Theorem reports_are_unpacked_in_order (args : Args) (lines : list pystr) :
  stationary args = false ->
  data_stream (reached args lines) =
    Some (fold_left (fun ds raw => unpack raw ds)
            (pending_reports 0 (List.length (accepted_records lines)))
            new_DataStream).
Proof.
  intro S. rewrite reached_state.
  destruct (main_loop_mobile_state args lines (snd (startup args))
              Connected new_DataStream S) as [_ [_ D]];
    try (unfold startup; rewrite S; reflexivity).
  rewrite D. unfold startup. now rewrite S.
Qed.

(** In stationary mode, when gpsd has nothing pending at the one call made at
    startup, every record of the run is sent with the position (0.0, 0.0). *)
Theorem stationary_without_startup_fix (args : Args) (lines : list pystr) :
  stationary args = true ->
  no_pending (gps_next 0) = true ->
  sent (trace_of (main args lines)) =
    map (fun d => json_dumps (VDict (enriched d zero_float zero_float)))
        (accepted_records lines).
Proof.
  intros S P.
  destruct (main_unfold args lines) as [T _].
  destruct (main_loop_stationary args lines (snd (startup args)) S) as [_ T'].
  rewrite T, sent_app, T', (startup_stationary args S).
  now rewrite (get_gps_location_no_pending 0 new_DataStream P).
Qed.

(** ** The order of the fields *)

Lemma keys_dict_set_has_key (d : dict) (k : pystr) (v : value) :
  keys (dict_set d k v) = keys d ++ (if has_key d k then [] else [k]).
Proof.
  unfold has_key. induction d as [|[k' v'] d IH]; simpl; [reflexivity|].
  destruct (pystr_eqb k' k) eqn:E; simpl.
  - now rewrite app_nil_r.
  - now rewrite IH.
Qed.

Lemma has_key_dict_set_other (d : dict) (k k' : pystr) (v : value) :
  k' <> k -> has_key (dict_set d k v) k' = has_key d k'.
Proof.
  intro N. unfold has_key at 1. rewrite keys_dict_set_has_key, existsb_app.
  fold (has_key d k').
  destruct (has_key d k); simpl; [apply orb_false_r|].
  rewrite (pystr_eqb_neq k k'); [now rewrite !orb_false_r | congruence].
Qed.

(** The enriched record keeps the fields of the input in their order; a
    coordinate the input does not have goes to the end, [gps_lat] before
    [gps_lon], and one it has stays where it was. *)
Theorem coordinates_go_last (d : dict) (lat lon : value) :
  keys (enriched d lat lon) =
    keys d ++
    (if has_key d (str "gps_lat") then [] else [str "gps_lat"]) ++
    (if has_key d (str "gps_lon") then [] else [str "gps_lon"]).
Proof.
  unfold enriched. rewrite !keys_dict_set_has_key.
  rewrite has_key_dict_set_other by exact gps_keys_differ.
  now rewrite app_assoc.
Qed.

Lemma dict_set_twice (d : dict) (k : pystr) (v v' : value) :
  dict_set (dict_set d k v) k v' = dict_set d k v'.
Proof.
  induction d as [|[k0 v0] d IH]; simpl.
  - now rewrite pystr_eqb_refl.
  - destruct (pystr_eqb k0 k) eqn:E; simpl; rewrite E; [reflexivity|].
    now rewrite IH.
Qed.

Lemma dict_set_swap (d : dict) (k1 k2 : pystr) (v1 v2 : value) :
  k1 <> k2 -> In k1 (keys d) ->
  dict_set (dict_set d k2 v2) k1 v1 = dict_set (dict_set d k1 v1) k2 v2.
Proof.
  intro N. induction d as [|[k0 v0] d IH]; simpl; intro I; [contradiction|].
  destruct (pystr_eqb k0 k1) eqn:E1.
  - apply pystr_eqb_eq in E1. subst k0.
    rewrite (pystr_eqb_neq k1 k2 N). simpl.
    now rewrite pystr_eqb_refl, (pystr_eqb_neq k1 k2 N).
  - destruct I as [->|I]; [now rewrite pystr_eqb_refl in E1|].
    destruct (pystr_eqb k0 k2) eqn:E2; simpl; rewrite E1, ?E2; [reflexivity|].
    now rewrite IH.
Qed.

(** Enriching a record that went through the program before gives what
    enriching the original record gives: the old position is replaced in
    place and nothing is added. *)
Theorem enriched_again (d : dict) (lat lon lat' lon' : value) :
  enriched (enriched d lat lon) lat' lon' = enriched d lat' lon'.
Proof.
  unfold enriched.
  rewrite (dict_set_swap (dict_set d (str "gps_lat") lat)
             (str "gps_lat") (str "gps_lon") lat' lon).
  - now rewrite !dict_set_twice.
  - intro E. now apply gps_keys_differ.
  - apply keys_dict_set. now right.
Qed.

(** ** The generator, further *)

Lemma read_serial_other_exception (args : Args) (g : gen_state) (e : exn) :
  is_SerialException e = false ->
  read_serial args g (Raise e) = (Terminated, [], None).
Proof. intro N. destruct g; simpl; now rewrite ?N. Qed.

Lemma generator_after_terminated (args : Args) (rs : list reply) :
  generator_after args Terminated rs = Terminated.
Proof. induction rs as [|r rs IH]; [reflexivity | exact IH]. Qed.

Lemma yielded_lines_terminated (args : Args) (rs : list reply) :
  yielded_lines args Terminated rs = [].
Proof. induction rs as [|r rs IH]; [reflexivity | exact IH]. Qed.

(** An exception of the serial port that is not a [SerialException] ends
    the generator: whatever the device would answer afterwards, no line is
    yielded and nothing more is sent. *)
Theorem other_exception_ends_stream
  (args : Args) (g : gen_state) (st : state) (before after : list reply) (e : exn) :
  is_SerialException e = false ->
  generator_after args g (before ++ Raise e :: after) = Terminated /\
  yielded_lines args g (before ++ Raise e :: after) = yielded_lines args g before /\
  sent (fst (drive args g st (before ++ Raise e :: after))) =
    sent (fst (drive args g st before)).
Proof.
  intro N.
  assert (Y : yielded_lines args g (before ++ Raise e :: after) =
              yielded_lines args g before).
  { rewrite yielded_lines_app, yielded_lines_step.
    rewrite (read_serial_other_exception args _ e N). simpl.
    now rewrite yielded_lines_terminated, app_nil_r. }
  split; [|split; [exact Y|]].
  - rewrite generator_after_app, generator_after_step.
    rewrite (read_serial_other_exception args _ e N). simpl.
    apply generator_after_terminated.
  - now rewrite !drive_sent, Y.
Qed.

Lemma yielded_lines_streaming (args : Args) (datas : list (list byte)) :
  yielded_lines args Streaming (map Ok datas) =
    filter truthy (map (fun data => strip (decode_utf8_replace data)) datas).
Proof.
  induction datas as [|data datas IH]; [reflexivity|].
  simpl map. rewrite yielded_lines_step. simpl.
  destruct (truthy (strip (decode_utf8_replace data))); simpl; now rewrite IH.
Qed.

(** On a connection that opens and does not fail the lines yielded are the
    reads whose stripped text is not empty, in the order of the reads, each
    once. *)
Theorem healthy_stream_is_fifo
  (args : Args) (opened : list byte) (datas : list (list byte)) :
  yielded_lines args Connecting (Ok opened :: map Ok datas) =
    filter truthy (map (fun data => strip (decode_utf8_replace data)) datas).
Proof.
  rewrite yielded_lines_step. simpl app.
  change (fst (fst (read_serial args Connecting (Ok opened)))) with Streaming.
  apply yielded_lines_streaming.
Qed.

(** From the bytes to the messages, in stationary mode on a connection that
    opens and does not fail: the messages sent are, in the order of the
    reads, the accepted records among the non-blank lines, each with the
    position read at startup. *)
Theorem stationary_pipeline
  (args : Args) (opened : list byte) (datas : list (list byte)) :
  stationary args = true ->
  sent (fst (drive args Connecting (snd (startup args)) (Ok opened :: map Ok datas))) =
    map (fun d =>
           json_dumps
             (VDict (enriched d
                       (fst (fst (fst (get_gps_location 0 new_DataStream))))
                       (snd (fst (fst (get_gps_location 0 new_DataStream)))))))
        (accepted_records
           (filter truthy
              (map (fun data => strip (decode_utf8_replace data)) datas))).
Proof.
  intro S. rewrite drive_sent, yielded_lines_step. simpl app.
  change (fst (fst (read_serial args Connecting (Ok opened)))) with Streaming.
  rewrite yielded_lines_streaming.
  destruct (main_loop_stationary args
              (filter truthy (map (fun data => strip (decode_utf8_replace data)) datas))
              (snd (startup args)) S) as [_ T].
  rewrite T. now rewrite (startup_stationary args S).
Qed.

(** ** The log and the backoff *)

(** The alert branch logs at most one record, a warning. *)
Lemma inspect_entry (d : dict) (st : state) :
  inspectable d = true ->
  trace_of (inspect (VDict d) st) = [] \/
  exists entry, trace_of (inspect (VDict d) st) = [Log WARNING [Txt (str entry)]].
Proof.
  unfold inspectable, inspect, bind, method_get, ret, warning, emit, trace_of. simpl.
  destruct (eq_str (dict_get d (str "type") (VStr (str ""))) (str "nodeMsg")).
  - intros _. right. eexists. reflexivity.
  - destruct (eq_str (dict_get d (str "type") (VStr (str ""))) (str "nodeAlert")).
    + destruct (dict_get d (str "msg") (VDict [])) as [| | | | |xs|m];
        try discriminate.
      destruct (dict_get m (str "stat") (VStr (str ""))) as [| | | |t|xs|m'];
        try discriminate; intros _; simpl.
      all: repeat match goal with
             | |- context [if ?b then _ else _] => destruct b; simpl
             end.
      all: (left; reflexivity) || (right; eexists; reflexivity).
    + intros _. now left.
Qed.

(** A line that is not accepted leaves one log record, a warning or an
    error, and nothing else. *)
Lemma process_line_dropped (args : Args) (line : pystr) (st : state) :
  accepted line = None ->
  exists lvl msg,
    trace_of (process_line args line st) = [Log lvl msg] /\
    (lvl = WARNING \/ lvl = ERROR).
Proof.
  unfold accepted. destruct (json_loads line) as [v|] eqn:L.
  - assert (D : (exists d, v = VDict d) \/ (forall d, v <> VDict d)).
    { destruct v; try (right; discriminate). left. now exists items. }
    destruct D as [[d ->] | N].
    + destruct (inspectable d) eqn:I; [discriminate|]. intros _.
      destruct (process_line_unreadable args line d st L I) as [e ->].
      eexists _, _. split; [reflexivity | now right].
    + intros _. rewrite (process_line_not_dict args line v st L N).
      eexists _, _. split; [reflexivity | now right].
  - intros _. rewrite (process_line_malformed args line st L).
    eexists _, _. split; [reflexivity | now left].
Qed.

Lemma process_line_published (args : Args) (line : pystr) (d : dict) (st : state) :
  accepted line = Some d ->
  let json_message :=
    json_dumps (VDict (enriched d (fst (position args st)) (snd (position args st)))) in
  trace_of (process_line args line st) =
    trace_of (inspect (VDict d) st) ++
    [Send json_message; Log DEBUG [Txt (str "Published: "); Txt json_message]].
Proof.
  unfold accepted. destruct (json_loads line) as [[| | | | | |d']|] eqn:L;
    try discriminate.
  destruct (inspectable d') eqn:I; [|discriminate].
  intro E. injection E as <-.
  now rewrite (process_line_accepted args line d' st L I).
Qed.

Lemma slept_app (a b : list event) : slept (a ++ b) = (slept a + slept b)%Z.
Proof.
  induction a as [|[lvl msg|sec|m] a IH]; simpl; try exact IH; [reflexivity|].
  rewrite IH. lia.
Qed.

Lemma shown_app (lvl : level) (a b : list event) :
  shown lvl (a ++ b) = shown lvl a ++ shown lvl b.
Proof.
  induction a as [|[l msg|sec|m] a IH]; simpl; try exact IH; [reflexivity|].
  destruct (levelno lvl <=? levelno l)%Z; [now rewrite IH | exact IH].
Qed.

(** The loop never sleeps. *)
Lemma process_line_never_sleeps (args : Args) (line : pystr) (st : state) :
  slept (trace_of (process_line args line st)) = 0%Z.
Proof.
  destruct (accepted line) as [d|] eqn:A.
  - rewrite (process_line_published args line d st A), slept_app. simpl.
    assert (I : inspectable d = true).
    { unfold accepted in A. destruct (json_loads line) as [[| | | | | |d']|];
        try discriminate.
      destruct (inspectable d') eqn:I; [|discriminate]. now injection A as <-. }
    destruct (inspect_entry d st I) as [->|[entry ->]]; reflexivity.
  - destruct (process_line_dropped args line st A) as [lvl [msg [-> _]]].
    reflexivity.
Qed.

(** Each [SerialException] costs one sleep of 5 seconds, however many came
    before: over a run in which the device only succeeds or fails with
    [SerialException], the time slept is 5 seconds times the number of
    failures. *)
Theorem backoff_is_linear
  (args : Args) (g : gen_state) (st : state) (replies : list reply) :
  forallb transport_only replies = true ->
  g <> Terminated ->
  slept (fst (drive args g st replies)) = (5 * Z.of_nat (failures replies))%Z.
Proof.
  revert g st; induction replies as [|r rs IH]; intros g st T N; [reflexivity|].
  simpl in T. apply andb_true_iff in T as [Tr T].
  pose proof (read_serial_alive args g r Tr N) as N'.
  simpl drive.
  assert (Step : slept (snd (fst (read_serial args g r))) =
                 (5 * Z.of_nat (failures [r]))%Z).
  { destruct r as [data|e].
    - destruct g; simpl; try contradiction; try reflexivity.
      now destruct (truthy _).
    - destruct e; try discriminate.
      now rewrite (read_serial_failure args g msg N). }
  assert (Count : failures (r :: rs) = failures [r] + failures rs).
  { destruct r as [data|e]; [reflexivity|]. now destruct e. }
  rewrite Count, Nat2Z.inj_add, Z.mul_add_distr_l, <- Step.
  destruct (read_serial args g r) as [[g' tr] [line|]]; cbn [fst snd] in *.
  - pose proof (process_line_never_sleeps args line st) as Q.
    unfold trace_of in Q.
    destruct (process_line args line st) as [[tr' st'] res]. cbn [fst snd] in *.
    specialize (IH g' st' T N').
    destruct (drive args g' st' rs) as [rest final]. cbn [fst snd] in *.
    rewrite !slept_app, Q, IH. lia.
  - specialize (IH g' st T N').
    destruct (drive args g' st rs) as [rest final]. cbn [fst snd] in *.
    rewrite !slept_app, IH. simpl. lia.
Qed.


(** Without [--debug] the log of a published record shows the boot or alert
    warning, if there is one, and not the record; with [--debug] it shows the
    published message as well. *)
Theorem quiet_log_hides_the_record
  (args : Args) (line : pystr) (d : dict) (st : state) :
  accepted line = Some d ->
  let json_message :=
    json_dumps (VDict (enriched d (fst (position args st)) (snd (position args st)))) in
  shown (setup_logging false) (trace_of (process_line args line st)) =
    trace_of (inspect (VDict d) st) /\
  shown (setup_logging true) (trace_of (process_line args line st)) =
    trace_of (inspect (VDict d) st) ++
    [Log DEBUG [Txt (str "Published: "); Txt json_message]].
Proof.
  intros A json_message.
  rewrite (process_line_published args line d st A), !shown_app.
  assert (I : inspectable d = true).
  { unfold accepted in A. destruct (json_loads line) as [[| | | | | |d']|];
      try discriminate.
    destruct (inspectable d') eqn:I; [|discriminate]. now injection A as <-. }
  destruct (inspect_entry d st I) as [->|[entry ->]]; split; reflexivity.
Qed.

(** ** The sockets *)


(** ** A pending report *)


End Verification.

(** * Runs on the stand-ins *)

Import Sample.

(** The end-to-end example of the specification, in stationary mode with the
    position (48, 2): one warning for the new contact, then the record with
    the position. *)
Example new_contact_run :
  trace_of (process_line fixed alert_line (snd (startup fixed))) =
    [Log WARNING [Txt (str "New FPV Drone detected!")];
     Send (text "{'type': 'nodeAlert', 'msg': {'stat': 'NEW CONTACT LOCK on 5.8GHz'}, 'gps_lat': 48, 'gps_lon': 2}");
     Log DEBUG
       [Txt (str "Published: ");
        Txt (text "{'type': 'nodeAlert', 'msg': {'stat': 'NEW CONTACT LOCK on 5.8GHz'}, 'gps_lat': 48, 'gps_lon': 2}")]].
Proof. vm_compute. reflexivity. Qed.

(** gps3 gives ['n/a'] for a report without a position, and the record is
    sent with that text. *)
Example position_not_available :
  sent (trace_of (process_line mobile boot_line
                    {| gps_socket := Some Connected;
                       data_stream := Some new_DataStream;
                       lat_cache := zero_float; lon_cache := zero_float;
                       polls := 5 |})) =
    [text "{'type': 'nodeMsg', 'seq': 7, 'gps_lat': 'n/a', 'gps_lon': 'n/a'}"].
Proof. vm_compute. reflexivity. Qed.

(** ** C1 *)



(** ** C2 *)


(** ** C3 *)

Lemma stationary_position_is_shared_witness :
  stationary fixed = true /\
  polls (state_of (main fixed [alert_line; str "not valid json"; boot_line; located_line])) = 1 /\
  sent (trace_of (main fixed [alert_line; str "not valid json"; boot_line; located_line])) =
    map (fun d =>
           json_dumps
             (VDict (enriched d
                       (fst (fst (fst (get_gps_location 0 new_DataStream))))
                       (snd (fst (fst (get_gps_location 0 new_DataStream)))))))
        (accepted_records [alert_line; str "not valid json"; boot_line; located_line]).
Proof.
  split; [reflexivity|].
  split.
  - apply (stationary_position_is_shared fixed
             [alert_line; str "not valid json"; boot_line; located_line]).
    reflexivity.
  - apply (stationary_position_is_shared fixed
             [alert_line; str "not valid json"; boot_line; located_line]).
    reflexivity.
Defined.

(** The same run, evaluated: three records, each with the position read at
    startup. *)
Example stationary_run :
  sent (trace_of (main fixed [alert_line; str "not valid json"; boot_line; located_line])) =
    [text "{'type': 'nodeAlert', 'msg': {'stat': 'NEW CONTACT LOCK on 5.8GHz'}, 'gps_lat': 48, 'gps_lon': 2}";
     text "{'type': 'nodeMsg', 'seq': 7, 'gps_lat': 48, 'gps_lon': 2}";
     text "{'type': 'track', 'gps_lat': 48, 'gps_lon': 2}"].
Proof. vm_compute. reflexivity. Qed.

(** ** C4 *)


(** ** C5 *)

Lemma device_is_transport_only : forall i, transport_only (device i) = true.
Proof. intro i. do 6 (destruct i as [|i]; [reflexivity|]). reflexivity. Qed.

(** The port is missing at first and the device is unplugged later; the
    generator is still alive after eight replies and has yielded the record
    read before the failure and the two read after it. *)
Lemma read_serial_self_heals_witness :
  (forall i, transport_only (device i) = true) /\
  generator_after mobile Connecting (first_replies device 8) <> Terminated /\
  yielded_lines mobile Connecting (first_replies device (S (S 5))) =
    yielded_lines mobile Connecting (first_replies device (S 5)) ++
    [strip (decode_utf8_replace (json_bytes "  {'type':'nodeMsg','seq':7}" ++ [x0a]))].
Proof.
  split; [exact device_is_transport_only|].
  split.
  - apply (read_serial_self_heals mobile device device_is_transport_only).
  - apply (proj1 (proj2 (proj2 (read_serial_self_heals mobile device
                                  device_is_transport_only)))
             5 (json_bytes "  {'type':'nodeMsg','seq':7}" ++ [x0a])
             (json_bytes "  {'type':'nodeMsg','seq':7}" ++ [x0a]));
      vm_compute; reflexivity.
Defined.

Example self_healing_run :
  yielded_lines mobile Connecting (first_replies device 8) =
    [text "{'type':'nodeMsg','seq':7}"; text "{'type':'nodeMsg','seq':7}";
     text "{'type':'nodeMsg','seq':7}"] /\
  snd (fst (read_serial mobile Streaming (device 4))) =
    [Log ERROR [Txt (str "Serial connection error: ");
                Exc (SerialException (str "device disconnected"));
                Txt (str ". Reconnecting in "); Num 5; Txt (str " seconds...")];
     Sleep 5].
Proof. split; vm_compute; reflexivity. Qed.

(** ** C6 *)

Lemma yielded_lines_are_stripped_and_nonempty_witness :
  In (str "drone " ++ [65533%N]) (yielded_lines mobile Connecting reads) /\
  str "drone " ++ [65533%N] <> [] /\
  isspace (hd 0%N (str "drone " ++ [65533%N])) = false /\
  isspace (last (str "drone " ++ [65533%N]) 0%N) = false.
Proof.
  assert (I : In (str "drone " ++ [65533%N]) (yielded_lines mobile Connecting reads)).
  { vm_compute. left. reflexivity. }
  split; [exact I|].
  split; [|split].
  - apply (yielded_lines_are_stripped_and_nonempty mobile Connecting reads _ I).
  - apply (yielded_lines_are_stripped_and_nonempty mobile Connecting reads _ I).
  - apply (yielded_lines_are_stripped_and_nonempty mobile Connecting reads _ I).
Defined.

(** Of the three reads only the last yields a line: the timeout and the
    blank line are skipped. *)
Example blank_reads_are_skipped :
  yielded_lines mobile Connecting reads = [str "drone " ++ [65533%N]] /\
  read_serial mobile Streaming (Ok [x20; x0d; x0a]) = (Streaming, [], None).
Proof. split; vm_compute; reflexivity. Qed.

(** ** C7 *)

Lemma alert_log_is_first_match_witness :
  json_loads alert_line = Some (VDict alert_record) /\
  eq_str (dict_get alert_record (str "type") (VStr (str ""))) (str "nodeAlert") = true /\
  status_text alert_record = Some (str "NEW CONTACT LOCK on 5.8GHz") /\
  inspect (VDict alert_record) (snd (startup fixed)) =
    (alert_entry (str "NEW CONTACT LOCK on 5.8GHz"), snd (startup fixed), inr tt) /\
  alert_entry (str "NEW CONTACT LOCK on 5.8GHz") =
    [Log WARNING [Txt (str "New FPV Drone detected!")]].
Proof.
  split; [vm_compute; reflexivity|].
  split; [vm_compute; reflexivity|].
  split; [vm_compute; reflexivity|].
  split.
  - apply (alert_log_is_first_match fixed alert_line alert_record
             (str "NEW CONTACT LOCK on 5.8GHz") (snd (startup fixed)));
      vm_compute; reflexivity.
  - apply (alert_log_is_first_match fixed alert_line alert_record
             (str "NEW CONTACT LOCK on 5.8GHz") (snd (startup fixed)));
      vm_compute; reflexivity.
Defined.

(** A status with two of the substrings: the first check decides. *)
Example first_check_wins :
  contains (str "LOCK UPDATE") (str "NEW CONTACT LOCK UPDATE") = true /\
  alert_entry (str "NEW CONTACT LOCK UPDATE") =
    [Log WARNING [Txt (str "New FPV Drone detected!")]] /\
  alert_entry (str "LOST CONTACT LOCK") =
    [Log WARNING [Txt (str "FPV Drone signal lost.")]] /\
  alert_entry (str "contact lock") = [].
Proof. repeat split; vm_compute; reflexivity. Qed.

(** ** C8 *)



(** ** C9 *)

Lemma non_object_is_dropped_witness :
  json_loads (text "['nodeMsg', 7]") = Some (VList [VStr (str "nodeMsg"); VInt 7]) /\
  (forall d, VList [VStr (str "nodeMsg"); VInt 7] <> VDict d) /\
  process_line mobile (text "['nodeMsg', 7]") (snd (startup mobile)) =
    ([Log ERROR [Txt (str "Unexpected error: ");
                 Exc (AttributeError (VList [VStr (str "nodeMsg"); VInt 7]) (str "get"))]],
     snd (startup mobile), inr tt).
Proof.
  split; [vm_compute; reflexivity|].
  split; [discriminate|].
  apply (non_object_is_dropped mobile (text "['nodeMsg', 7]")
           (VList [VStr (str "nodeMsg"); VInt 7]) (snd (startup mobile))).
  - vm_compute. reflexivity.
  - discriminate.
Defined.

(** ** C10 *)

Lemma located_record_keys : NoDup (keys located_record).
Proof.
  repeat constructor; simpl; intro I;
    repeat (destruct I as [I|I]; [vm_compute in I; discriminate|]); exact I.
Qed.

Lemma own_coordinates_are_overwritten_witness :
  json_loads located_line = Some (VDict located_record) /\
  NoDup (keys located_record) /\
  (In (str "gps_lat") (keys located_record) \/ In (str "gps_lon") (keys located_record)) /\
  dict_lookup (enriched located_record
                 (fst (position fixed (snd (startup fixed))))
                 (snd (position fixed (snd (startup fixed)))))
              (str "gps_lat") =
    Some (fst (position fixed (snd (startup fixed)))).
Proof.
  split; [vm_compute; reflexivity|].
  split; [exact located_record_keys|].
  split; [left; vm_compute; right; left; reflexivity|].
  apply (own_coordinates_are_overwritten fixed located_line located_record
           (snd (startup fixed))).
  - vm_compute. reflexivity.
  - exact located_record_keys.
  - left. vm_compute. right. left. reflexivity.
Defined.

Example overwritten_run :
  sent (trace_of (process_line fixed located_line (snd (startup fixed)))) =
    [text "{'type': 'track', 'gps_lat': 48, 'gps_lon': 2}"].
Proof. vm_compute. reflexivity. Qed.


(** ** Further runs *)

Lemma reports_are_unpacked_in_order_witness :
  stationary mobile = false /\
  data_stream (reached mobile [alert_line; str "not valid json"; boot_line]) =
    Some (fold_left (fun ds raw => unpack raw ds)
            (pending_reports 0
               (List.length
                  (accepted_records [alert_line; str "not valid json"; boot_line])))
            new_DataStream).
Proof.
  split; [reflexivity|].
  apply (reports_are_unpacked_in_order mobile
           [alert_line; str "not valid json"; boot_line]).
  reflexivity.
Defined.

Lemma stationary_without_startup_fix_witness :
  stationary fixed = true /\
  no_pending (gps_next (Gpsd := silent_gpsd) 0) = true /\
  sent (trace_of (main (H1 := silent_gpsd) fixed [alert_line; boot_line])) =
    map (fun d => json_dumps (VDict (enriched d zero_float zero_float)))
        (accepted_records [alert_line; boot_line]).
Proof.
  split; [reflexivity|].
  split; [reflexivity|].
  apply (stationary_without_startup_fix (H1 := silent_gpsd) fixed
           [alert_line; boot_line]); reflexivity.
Defined.

Lemma other_exception_ends_stream_witness :
  is_SerialException (OtherException (str "ValueError")) = false /\
  yielded_lines mobile Connecting
    (first_replies device 4 ++ Raise (OtherException (str "ValueError")) ::
     first_replies device 8) =
    yielded_lines mobile Connecting (first_replies device 4).
Proof.
  split; [reflexivity|].
  apply (other_exception_ends_stream mobile Connecting (snd (startup mobile))
           (first_replies device 4) (first_replies device 8)
           (OtherException (str "ValueError"))).
  reflexivity.
Defined.

Lemma stationary_pipeline_witness :
  stationary fixed = true /\
  sent (fst (drive fixed Connecting (snd (startup fixed))
               (Ok [] :: map Ok [json_bytes "{'type':'nodeMsg','seq':7}" ++ [x0a];
                                 [x20; x0a];
                                 bytes "not valid json" ++ [x0a]]))) =
    map (fun d =>
           json_dumps
             (VDict (enriched d
                       (fst (fst (fst (get_gps_location 0 new_DataStream))))
                       (snd (fst (fst (get_gps_location 0 new_DataStream)))))))
        (accepted_records
           (filter truthy
              (map (fun data => strip (decode_utf8_replace data))
                   [json_bytes "{'type':'nodeMsg','seq':7}" ++ [x0a];
                    [x20; x0a];
                    bytes "not valid json" ++ [x0a]]))).
Proof.
  split; [reflexivity|].
  apply (stationary_pipeline fixed []
           [json_bytes "{'type':'nodeMsg','seq':7}" ++ [x0a];
            [x20; x0a];
            bytes "not valid json" ++ [x0a]]).
  reflexivity.
Defined.

Lemma backoff_is_linear_witness :
  forallb transport_only (first_replies device 8) = true /\
  Connecting <> Terminated /\
  slept (fst (drive mobile Connecting (snd (startup mobile)) (first_replies device 8))) =
    (5 * Z.of_nat (failures (first_replies device 8)))%Z.
Proof.
  split; [vm_compute; reflexivity|].
  split; [discriminate|].
  apply (backoff_is_linear mobile Connecting (snd (startup mobile))
           (first_replies device 8)).
  - vm_compute. reflexivity.
  - discriminate.
Defined.


Lemma quiet_log_hides_the_record_witness :
  accepted alert_line = Some alert_record /\
  shown (setup_logging false)
        (trace_of (process_line fixed alert_line (snd (startup fixed)))) =
    trace_of (inspect (VDict alert_record) (snd (startup fixed))).
Proof.
  split; [vm_compute; reflexivity|].
  apply (quiet_log_hides_the_record fixed alert_line alert_record (snd (startup fixed))).
  vm_compute. reflexivity.
Defined.


(** The run of the device above, evaluated: two failures, ten seconds. *)
Example backoff_run :
  failures (first_replies device 8) = 2 /\
  slept (fst (drive mobile Connecting (snd (startup mobile)) (first_replies device 8))) =
    10%Z.
Proof. split; vm_compute; reflexivity. Qed.
